(** * json2yaml: a shallow embedding of [json2yaml.py] and its properties

    The program converts JSON documents to YAML, either file by file
    (file-tree mode) or from standard input to standard output (stream
    mode).  The embedding follows the source function by function:

    - [Pathlib]: the part of [pathlib.PurePosixPath] the program uses
      ([name], [suffix], [with_suffix]) and the matching of the pattern
      ['*.json'];
    - [json.load] and [yaml.dump] are libraries the program calls: they are
      parameters of the embedding, and so is the type of value trees;
    - [world]: the file system, the two standard streams, the records handed
      to [logging] and the trace of system calls;
    - [M]: state passing with Python exceptions;
    - [load_json_file] ... [main]: the functions of the source, in order. *)

From Stdlib Require Import Ascii.
From Stdlib Require String.
From stdpp Require Import base decidable option list countable gmap strings fin_maps.

Abbreviation list_ascii_of_string := String.list_ascii_of_string.
Abbreviation string_of_list_ascii := String.string_of_list_ascii.

(** ** Paths *)

Module Pathlib.

(** A parsed path: whether it is anchored at the root, and its components
    below the anchor ([PurePath._tail]).  [Path('.')] has no component. *)
Record Path : Type := mkPath { absolute : bool; tail : list string }.

#[global] Instance Path_eq_dec : EqDecision Path.
Proof. solve_decision. Defined.

#[global] Instance Path_countable : Countable Path.
Proof.
  apply (inj_countable' (fun p => (absolute p, tail p))
                        (fun q => mkPath (fst q) (snd q))).
  by intros [??].
Defined.

(** [PurePath.name]: the final component, [''] when there is none. *)
Definition name (p : Path) : string := List.last (tail p) "".

(** [self / entry] for a single component. *)
Definition joinpath (p : Path) (entry : string) : Path :=
  mkPath (absolute p) (tail p ++ [entry]).

(** The directory holding [p], when [p] has a final component. *)
Definition parent (p : Path) : option Path :=
  match tail p with
  | [] => None
  | _ :: _ => Some (mkPath (absolute p) (removelast (tail p)))
  end.

(** [str.rfind(c)]: the highest index holding [c]; Python's [-1] is
    [None]. *)
Fixpoint rfind (c : ascii) (l : list ascii) : option nat :=
  match l with
  | [] => None
  | x :: l' =>
      match rfind c l' with
      | Some i => Some (S i)
      | None => if decide (x = c) then Some 0 else None
      end
  end.

(** [PurePath.suffix] on the final component, as CPython 3.9 to 3.12
    compute it:
<<
    i = name.rfind('.')
    if 0 < i < len(name) - 1: return name[i:]
    else: return ''
>> *)
Definition suffix_of_name (nm : list ascii) : list ascii :=
  match rfind "."%char nm with
  | Some i => if (0 <? i) && (i <? length nm - 1) then drop i nm else []
  | None => []
  end.

Definition suffix (p : Path) : string :=
  string_of_list_ascii (suffix_of_name (list_ascii_of_string (name p))).

(** [PurePath.with_suffix(suffix)]; [None] stands for its [ValueError]
    (a separator in the suffix, a suffix that does not start with a dot
    or is a lone dot, a path with an empty name). *)
Definition with_suffix (p : Path) (sfx : string) : option Path :=
  let s := list_ascii_of_string sfx in
  let nm := list_ascii_of_string (name p) in
  if bool_decide ("/"%char ∈ s) then None
  else if bool_decide (s ≠ [] ∧ head s ≠ Some "."%char ∨ sfx = ".") then None
  else if bool_decide (nm = []) then None
  else
    let old := suffix_of_name nm in
    let nm' := take (length nm - length old) nm ++ s in
    Some (mkPath (absolute p)
                 (removelast (tail p) ++ [string_of_list_ascii nm'])).

(** [fnmatch] against a pattern ['*' + lit] where [lit] holds no
    wildcard: the name matches when it ends with [lit]. *)
Definition endswith (lit nm : list ascii) : bool :=
  bool_decide (drop (length nm - length lit) nm = lit).

Definition fnmatch_star (lit : string) (nm : string) : bool :=
  endswith (list_ascii_of_string lit) (list_ascii_of_string nm).

End Pathlib.
Export Pathlib.

(** ** The world the program runs in *)

(** A directory entry: a regular file with its content, or a directory. *)
Inductive node : Type :=
| File (content : string)
| Dir.

(** The three modes the program passes to [open]. *)
Inductive mode : Type :=
| RB  (** ['rb']: read, the file must exist *)
| WT  (** ['wt']: write, create or truncate *)
| XT. (** ['xt']: write, exclusive creation, fails when the path exists *)

(** System calls, in the order they are made. *)
Inductive event : Type :=
| EvStat (p : Path)             (** [is_file] / [is_dir] *)
| EvScandir (p : Path)          (** [glob] reads the directory *)
| EvOpen (p : Path) (m : mode)  (** [open(p, m)] *)
| EvWrite (p : Path)            (** a write through a handle on [p] *)
| EvReadStdin
| EvWriteStdout.

Inductive level : Type := DEBUG | INFO | WARNING | ERROR | CRITICAL.

#[global] Instance node_eq_dec : EqDecision node.
Proof. solve_decision. Defined.
#[global] Instance mode_eq_dec : EqDecision mode.
Proof. solve_decision. Defined.
#[global] Instance event_eq_dec : EqDecision event.
Proof. solve_decision. Defined.
#[global] Instance level_eq_dec : EqDecision level.
Proof. solve_decision. Defined.

Definition level_no (l : level) : nat :=
  match l with
  | DEBUG => 10 | INFO => 20 | WARNING => 30 | ERROR => 40 | CRITICAL => 50
  end.

(** File objects: what [open] returns, and the two standard streams. *)
Inductive handle : Type :=
| HRead (content : string)
| HWrite (p : Path)
| HStdin
| HStdout.

(** The parsed command line ([argparse.Namespace]). *)
Record Namespace : Type := mkNamespace {
  log_level : level;
  force_flag : bool;
  source_args : list Path
}.

(** [class App]: its two attributes. *)
Record App : Type := mkApp { sources : list Path; force : bool }.

Section Program.

(** The value tree ([typing.Any] in the source) and the two library
    calls that produce and consume it.  [json_load] is [json.load] on the
    whole text of a stream, [None] when it raises; [yaml_dump] is the
    text [yaml.dump] emits. *)
Variable Any : Type.
Variable json_load : string -> option Any.
Variable yaml_dump : Any -> string.

(** The f-strings of the source, one constructor each. *)
Inductive message : Type :=
| Opening_for_reading (source : Path)
| Opening_for_writing (destination : Path) (m : mode)
| Already_exists_skipping (destination : Path)
| No_json_extension_skipping (source : Path)
| Converting (source destination : Path)
| Data (data : Any)
| Processing (source : Path)
| Forcing_overwrite
| Forcing_has_no_effect
| Args (args : Namespace)
| Not_a_known_type (source : Path).

Inductive exn : Type :=
| AppError (msg : message)
| FileNotFoundError (p : Path)
| FileExistsError (p : Path)
| IsADirectoryError (p : Path)
| JSONDecodeError
| ValueError
| UnsupportedOperation.

(** [log] holds the records handed to [logging], whatever the threshold;
    [threshold] is what [logging.basicConfig] set. *)
Record world : Type := mkWorld {
  fs : gmap Path node;
  stdin : string;
  stdout : string;
  threshold : level;
  log : list (level * message);
  trace : list event
}.

Definition set_fs (m : gmap Path node) (w : world) : world :=
  mkWorld m (stdin w) (stdout w) (threshold w) (log w) (trace w).
Definition set_stdin (s : string) (w : world) : world :=
  mkWorld (fs w) s (stdout w) (threshold w) (log w) (trace w).
Definition set_stdout (s : string) (w : world) : world :=
  mkWorld (fs w) (stdin w) s (threshold w) (log w) (trace w).
Definition set_threshold (l : level) (w : world) : world :=
  mkWorld (fs w) (stdin w) (stdout w) l (log w) (trace w).
Definition add_log (r : level * message) (w : world) : world :=
  mkWorld (fs w) (stdin w) (stdout w) (threshold w) (log w ++ [r]) (trace w).
Definition add_event (e : event) (w : world) : world :=
  mkWorld (fs w) (stdin w) (stdout w) (threshold w) (log w) (trace w ++ [e]).

(** The records that reach the error stream. *)
Definition emitted (w : world) : list (level * message) :=
  filter (fun r => level_no (threshold w) ≤ level_no (fst r)) (log w).

(** *** Computations: state passing with exceptions

    A call returns, raises, or (for the one recursive function) runs out
    of the fuel it was given.  A raised exception keeps the effects made
    before it. *)
Inductive outcome (A : Type) : Type :=
| Return (a : A) (w : world)
| Raise (e : exn) (w : world)
| OutOfFuel.
Arguments Return {A} a w.
Arguments Raise {A} e w.
Arguments OutOfFuel {A}.

Definition M (A : Type) : Type := world -> outcome A.

Definition ret {A} (a : A) : M A := fun w => Return a w.
Definition raise {A} (e : exn) : M A := fun w => Raise e w.
Definition bind {A B} (m : M A) (k : A -> M B) : M B :=
  fun w =>
    match m w with
    | Return a w' => k a w'
    | Raise e w' => Raise e w'
    | OutOfFuel => OutOfFuel
    end.
Definition diverge {A} : M A := fun _ => OutOfFuel.

(** [try: m except E as e: h e], where [handler e] is [Some] exactly on
    the exceptions of class [E]. *)
Definition try_except {A} (m : M A) (handler : exn -> option (M A)) : M A :=
  fun w =>
    match m w with
    | Raise e w' =>
        match handler e with
        | Some h => h w'
        | None => Raise e w'
        end
    | o => o
    end.

Notation "'let*' x ':=' m 'in' k" := (bind m (fun x => k))
  (at level 10, x name, m at level 100, k at level 200, only parsing).
Notation "m '>>' k" := (bind m (fun _ => k))
  (at level 100, k at level 200, right associativity, only parsing).

(** [for x in xs: body x]. *)
Fixpoint for_each {A} (xs : list A) (body : A -> M unit) : M unit :=
  match xs with
  | [] => ret tt
  | x :: xs' => body x >> for_each xs' body
  end.

(** The world an outcome ends in. *)
Definition final {A} (o : outcome A) : option world :=
  match o with
  | Return _ w | Raise _ w => Some w
  | OutOfFuel => None
  end.

(** *** Library calls *)

Definition logging_log (l : level) (msg : message) : M unit :=
  fun w => Return tt (add_log (l, msg) w).

Definition basicConfig (l : level) : M unit :=
  fun w => Return tt (set_threshold l w).

Definition is_file (p : Path) : M bool :=
  fun w => Return (match fs w !! p with Some (File _) => true | _ => false end)
                  (add_event (EvStat p) w).

Definition is_dir (p : Path) : M bool :=
  fun w => Return (match fs w !! p with Some Dir => true | _ => false end)
                  (add_event (EvStat p) w).

(** The entries of a directory, each as [d / entry]. *)
Definition iterdir (m : gmap Path node) (d : Path) : list Path :=
  filter (fun p => parent p = Some d) (map_to_list m).*1.

(** [d.glob('*' + lit)]: the entries of [d] whose name ends with [lit].
    The directory is read once, when the iteration starts. *)
Definition glob_star (d : Path) (lit : string) : M (list Path) :=
  fun w => Return (filter (fun p => fnmatch_star lit (name p) = true)
                          (iterdir (fs w) d))
                  (add_event (EvScandir d) w).

(** [open(p, m)].  A path opened for writing is a sibling of a file that
    was just read, so its directory exists. *)
Definition open_ (p : Path) (m : mode) : M handle :=
  fun w =>
    let w' := add_event (EvOpen p m) w in
    match m, fs w !! p with
    | RB, Some (File c) => Return (HRead c) w'
    | RB, Some Dir => Raise (IsADirectoryError p) w'
    | RB, None => Raise (FileNotFoundError p) w'
    | WT, Some Dir => Raise (IsADirectoryError p) w'
    | WT, _ => Return (HWrite p) (set_fs (<[p := File ""]> (fs w)) w')
    | XT, Some _ => Raise (FileExistsError p) w'
    | XT, None => Return (HWrite p) (set_fs (<[p := File ""]> (fs w)) w')
    end.

Definition decode {A} (o : option A) : M A :=
  match o with
  | Some v => ret v
  | None => raise JSONDecodeError
  end.

(** [json.load(fp)]: read the stream to its end, then decode. *)
Definition json_load_fp (fp : handle) : M Any :=
  match fp with
  | HRead c => decode (json_load c)
  | HStdin =>
      fun w => decode (json_load (stdin w))
                      (set_stdin "" (add_event EvReadStdin w))
  | HWrite _ | HStdout => raise UnsupportedOperation
  end.

Definition content_of (o : option node) : string :=
  match o with
  | Some (File c) => c
  | _ => ""
  end.

(** [yaml.dump(data, fp)]: append the text to the stream. *)
Definition yaml_dump_fp (data : Any) (fp : handle) : M unit :=
  match fp with
  | HWrite p =>
      fun w =>
        Return tt
          (set_fs (<[p := File (content_of (fs w !! p) +:+ yaml_dump data)]> (fs w))
                  (add_event (EvWrite p) w))
  | HStdout =>
      fun w => Return tt (set_stdout (stdout w +:+ yaml_dump data)
                                     (add_event EvWriteStdout w))
  | HRead _ | HStdin => raise UnsupportedOperation
  end.

(** *** The program *)

Definition load_json_file (source : Path) : M Any :=
  logging_log DEBUG (Opening_for_reading source) >>
  let* fp := open_ source RB in
  json_load_fp fp.

Definition write_yaml_file (destination : Path) (data : Any) (m : mode)
  : M unit :=
  logging_log DEBUG (Opening_for_writing destination m) >>
  let* fp := open_ destination m in
  yaml_dump_fp data fp.

Definition write_yaml_file_if_not_exists_and_not_forced
    (data : Any) (destination : Path) (force : bool) : M unit :=
  let m := if force then WT else XT in
  try_except (write_yaml_file destination data m)
    (fun e =>
       match e with
       | FileExistsError _ =>
           Some (logging_log WARNING (Already_exists_skipping destination))
       | _ => None
       end).

Definition json_to_yaml (self : App) (source : Path) : M unit :=
  if negb (bool_decide (suffix source = ".json")) then
    logging_log WARNING (No_json_extension_skipping source)
  else
    match with_suffix source ".yaml" with
    | None => raise ValueError
    | Some destination =>
        logging_log INFO (Converting source destination) >>
        let* data := load_json_file source in
        logging_log DEBUG (Data data) >>
        write_yaml_file_if_not_exists_and_not_forced data destination
                                                      (force self)
    end.

(** The recursion of [run_source] follows the directory tree; [fuel]
    bounds its depth. *)
Fixpoint run_source (fuel : nat) (self : App) (source : Path) : M unit :=
  let* f := is_file source in
  if f then json_to_yaml self source
  else
    let* d := is_dir source in
    if d then
      let* files := glob_star source ".json" in
      for_each files
        (fun file =>
           match fuel with
           | 0 => diverge
           | S fuel' => run_source fuel' self file
           end)
    else raise (AppError (Not_a_known_type source)).

Definition run_sources (fuel : nat) (self : App) : M unit :=
  (if force self then logging_log INFO Forcing_overwrite else ret tt) >>
  for_each (sources self)
    (fun source =>
       logging_log DEBUG (Processing source) >>
       run_source fuel self source).

Definition run_streams (self : App) : M unit :=
  (if force self then logging_log WARNING Forcing_has_no_effect
   else ret tt) >>
  let* data := json_load_fp HStdin in
  logging_log DEBUG (Data data) >>
  yaml_dump_fp data HStdout.

Definition run (fuel : nat) (self : App) : M unit :=
  if 0 <? length (sources self) then run_sources fuel self
  else run_streams self.

(** [main], from the parsed arguments on. *)
Definition main (fuel : nat) (args : Namespace) : M unit :=
  basicConfig (log_level args) >>
  logging_log DEBUG (Args args) >>
  try_except
    (run fuel (mkApp (source_args args) (force_flag args)))
    (fun e =>
       match e with
       | AppError msg => Some (logging_log ERROR msg)
       | _ => None
       end).

(** The status the interpreter reports for [if __name__ == '__main__':
    main()]: [0] when [main] returns, [1] when an exception leaves it. *)
Definition exit_status (o : outcome unit) : option nat :=
  match o with
  | Return _ _ => Some 0
  | Raise _ _ => Some 1
  | OutOfFuel => None
  end.

End Program.

Arguments Opening_for_reading {Any} source.
Arguments Opening_for_writing {Any} destination m.
Arguments Already_exists_skipping {Any} destination.
Arguments No_json_extension_skipping {Any} source.
Arguments Converting {Any} source destination.
Arguments Data {Any} data.
Arguments Processing {Any} source.
Arguments Forcing_overwrite {Any}.
Arguments Forcing_has_no_effect {Any}.
Arguments Args {Any} args.
Arguments Not_a_known_type {Any} source.
Arguments AppError {Any} msg.
Arguments FileNotFoundError {Any} p.
Arguments FileExistsError {Any} p.
Arguments IsADirectoryError {Any} p.
Arguments JSONDecodeError {Any}.
Arguments ValueError {Any}.
Arguments UnsupportedOperation {Any}.
Arguments mkWorld {Any} fs stdin stdout threshold log trace.
Arguments fs {Any} w.
Arguments stdin {Any} w.
Arguments stdout {Any} w.
Arguments threshold {Any} w.
Arguments log {Any} w.
Arguments trace {Any} w.
Arguments set_fs {Any} m w.
Arguments set_stdin {Any} s w.
Arguments set_stdout {Any} s w.
Arguments set_threshold {Any} l w.
Arguments add_log {Any} r w.
Arguments add_event {Any} e w.
Arguments emitted {Any} w.
Arguments Return {Any A} a w.
Arguments Raise {Any A} e w.
Arguments OutOfFuel {Any A}.
Arguments ret {Any A} a w.
Arguments raise {Any A} e w.
Arguments bind {Any A B} m k w.
Arguments diverge {Any A} w.
Arguments try_except {Any A} m handler w.
Arguments for_each {Any A} xs body w.
Arguments final {Any A} o.
Arguments logging_log {Any} l msg w.
Arguments basicConfig {Any} l w.
Arguments is_file {Any} p w.
Arguments is_dir {Any} p w.
Arguments glob_star {Any} d lit w.
Arguments open_ {Any} p m w.
Arguments decode {Any A} o w.
Arguments json_load_fp {Any} json_load fp w.
Arguments yaml_dump_fp {Any} yaml_dump data fp w.
Arguments load_json_file {Any} json_load source w.
Arguments write_yaml_file {Any} yaml_dump destination data m w.
Arguments write_yaml_file_if_not_exists_and_not_forced
  {Any} yaml_dump data destination force w.
Arguments json_to_yaml {Any} json_load yaml_dump self source w.
Arguments run_source {Any} json_load yaml_dump fuel self source w.
Arguments run_sources {Any} json_load yaml_dump fuel self w.
Arguments run_streams {Any} json_load yaml_dump self w.
Arguments run {Any} json_load yaml_dump fuel self w.
Arguments main {Any} json_load yaml_dump fuel args w.
Arguments exit_status {Any} o.

(** ** Vocabulary of the statements *)

(** The world [main] hands to [App.run]: the threshold is set and the
    arguments are logged. *)
Definition preamble {Any} (args : Namespace) (w : world Any) : world Any :=
  add_log (DEBUG, Args args) (set_threshold (log_level args) w).

(** [*.json] as [glob] sees it. *)
Definition matches_json (p : Path) : bool := fnmatch_star ".json" (name p).

(** What the pattern selects in directory [d]. *)
Definition json_entries (m : gmap Path node) (d : Path) : list Path :=
  filter (fun p => matches_json p = true) (iterdir m d).

(** The longest path of a file system, in components. *)
Definition height (m : gmap Path node) : nat :=
  max_list ((fun p => length (tail p)) <$> (map_to_list m).*1).

Definition bounded (h : nat) (m : gmap Path node) : Prop :=
  ∀ p, is_Some (m !! p) → length (tail p) ≤ h.

(** Regular files stay regular files and directories stay directories. *)
Definition kinds_kept (m m' : gmap Path node) : Prop :=
  ∀ p, match m !! p with
       | Some (File _) => ∃ c, m' !! p = Some (File c)
       | Some Dir => m' !! p = Some Dir
       | None => True
       end.

Definition kinds_kept_w {Any} (w w' : world Any) : Prop :=
  kinds_kept (fs w) (fs w').

Definition bounded_w {Any} (h : nat) (w w' : world Any) : Prop :=
  bounded h (fs w) → bounded h (fs w').

(** [w'] continues [w] with events that all satisfy [P]. *)
Definition extends_with {Any} (P : event → Prop) (w w' : world Any) : Prop :=
  ∃ evs, trace w' = trace w ++ evs ∧ Forall P evs.

(** The standard streams are left alone. *)
Definition streams_untouched {Any} (w w' : world Any) : Prop :=
  stdin w' = stdin w ∧ stdout w' = stdout w ∧
  extends_with (fun e => e ≠ EvReadStdin ∧ e ≠ EvWriteStdout) w w'.

(** A relation holds between the start of a call and wherever it ends. *)
Definition keeps {Any A} (R : world Any → world Any → Prop) (m : M Any A)
  : Prop :=
  ∀ w, match m w with
       | Return _ w' | Raise _ w' => R w w'
       | OutOfFuel => True
       end.

(** A call started under [I] ends, and ends under [I]. *)
Definition ends_within {Any A} (I : world Any → Prop) (m : M Any A) : Prop :=
  ∀ w, I w → match m w with
             | Return _ w' | Raise _ w' => I w'
             | OutOfFuel => False
             end.




(** A relation that logging and the read-only system calls respect. *)
Class Quiet {Any} (R : world Any → world Any → Prop) : Prop := {
  quiet_preorder :: PreOrder R;
  quiet_log w r : R w (add_log r w);
  quiet_stat w p : R w (add_event (EvStat p) w);
  quiet_scandir w p : R w (add_event (EvScandir p) w);
  quiet_threshold w l : R w (set_threshold l w);
}.

(** The worlds a conversion goes through: the source opened, the
    destination opened with mode [m], the text written. *)
Definition opened {Any} (source dest : Path) (w : world Any) : world Any :=
  add_event (EvOpen source RB)
    (add_log (DEBUG, Opening_for_reading source)
       (add_log (INFO, Converting source dest) w)).

Definition writing {Any} (source dest : Path) (data : Any) (m : mode)
    (w : world Any) : world Any :=
  add_event (EvOpen dest m)
    (add_log (DEBUG, Opening_for_writing dest m)
       (add_log (DEBUG, Data data) (opened source dest w))).

Definition written {Any} (yaml_dump : Any → string) (source dest : Path)
    (data : Any) (m : mode) (w : world Any) : world Any :=
  set_fs (<[dest := File (yaml_dump data)]> (fs w))
         (add_event (EvWrite dest) (writing source dest data m w)).

(** What a conversion of [source] may do to the file system and which
    calls it may make: [source] keeps its node, it is opened for reading
    only, and whatever is opened for writing or written is its
    destination. *)
Definition opens_only {Any} (source : Path) (w w' : world Any) : Prop :=
  fs w' !! source = fs w !! source ∧
  extends_with
    (fun e =>
       match e with
       | EvOpen p RB => p = source
       | EvOpen p _ | EvWrite p =>
           with_suffix source ".yaml" = Some p ∧ p ≠ source
       | _ => False
       end) w w'.

(** ** A small instance to run the model on

    Scalar documents only: the three JSON literals, and the text PyYAML
    emits for them. *)

Inductive scalar : Type := SNull | SBool (b : bool).

Definition nl : string := String (ascii_of_nat 10) EmptyString.

Definition scalar_load (s : string) : option scalar :=
  if decide (s = "null") then Some SNull
  else if decide (s = "true") then Some (SBool true)
  else if decide (s = "false") then Some (SBool false)
  else None.

Definition scalar_dump (v : scalar) : string :=
  match v with
  | SNull => "null" +:+ nl +:+ "..." +:+ nl
  | SBool true => "true" +:+ nl +:+ "..." +:+ nl
  | SBool false => "false" +:+ nl +:+ "..." +:+ nl
  end.

Definition rel (parts : list string) : Path := mkPath false parts.

Definition world_of (files : list (Path * node)) (input : string)
  : world scalar :=
  mkWorld (list_to_map files) input "" WARNING [] [].

(** Paths and worlds of the examples. *)
Definition a_json : Path := rel ["a.json"].
Definition a_yaml : Path := rel ["a.yaml"].
Definition data_txt : Path := rel ["data.txt"].
Definition missing : Path := rel ["missing"].
Definition dir_d : Path := rel ["d"].
Definition b_json : Path := rel ["d"; "b.json"].
Definition c_txt : Path := rel ["d"; "c.txt"].
Definition hidden_json : Path := rel ["d"; ".json"].

(** One valid source, no destination yet. *)
Definition w_fresh : world scalar := world_of [(a_json, File "null")] "".
(** One valid source next to an older destination. *)
Definition w_stale : world scalar :=
  world_of [(a_json, File "null"); (a_yaml, File "old")] "".
(** A source that is not JSON next to an older destination. *)
Definition w_broken : world scalar :=
  world_of [(a_json, File "{"); (a_yaml, File "old")] "".
(** A directory of regular files. *)
Definition w_flat : world scalar :=
  world_of [(dir_d, Dir); (b_json, File "true"); (c_txt, File "x");
            (hidden_json, File "null")] "".
(** Nothing but a document on standard input. *)
Definition w_piped : world scalar := world_of [] "true".

Definition forced : App := mkApp [a_json] true.
Definition unforced : App := mkApp [a_json] false.

(** The two extensions, as character lists. *)
Definition dot_json : list ascii := list_ascii_of_string ".json".
Definition dot_yaml : list ascii := list_ascii_of_string ".yaml".

(** ** Vocabulary of the further properties *)

(** The loop of [run_sources] over its arguments. *)
Definition process {Any} (json_load : string → option Any)
    (yaml_dump : Any → string) (fuel : nat) (self : App) (l : list Path)
  : M Any unit :=
  for_each l
    (fun source =>
       bind (logging_log DEBUG (Processing source))
            (fun _ => run_source json_load yaml_dump fuel self source)).

(** A relation on file systems, read on worlds. *)
Definition on_fs {Any} (R : relation (gmap Path node)) (w w' : world Any)
  : Prop :=
  R (fs w) (fs w').

(** Every path whose extension is not [.yaml] keeps its node. *)
Definition yaml_only (m m' : gmap Path node) : Prop :=
  ∀ p, suffix p ≠ ".yaml" → m' !! p = m !! p.

(** The exceptions a run can end with: a source that does not decode, or
    a destination that is a directory. *)
Definition run_failure {Any} (forced : bool) (m : gmap Path node)
    (e : exn Any) : Prop :=
  e = JSONDecodeError ∨
  (forced = true ∧
   ∃ source dest, suffix source = ".json" ∧
                  with_suffix source ".yaml" = Some dest ∧
                  m !! dest = Some Dir ∧ e = IsADirectoryError dest).

(** Whatever differs between two file systems is the YAML text of a
    [.json] regular file of the first, at that file's destination. *)
Definition converted {Any} (json_load : string → option Any)
    (yaml_dump : Any → string) (m m' : gmap Path node) : Prop :=
  ∀ p, m' !! p = m !! p ∨
       ∃ s c v, m !! s = Some (File c) ∧ suffix s = ".json" ∧
                with_suffix s ".yaml" = Some p ∧ json_load c = Some v ∧
                m' !! p = Some (File (yaml_dump v)).


(** [w'] comes after [w] in a run of [self]: whatever logging, the
    read-only system calls and the conversions of [self] respect holds
    between the two. *)
Definition reach {Any} (json_load : string → option Any)
    (yaml_dump : Any → string) (self : App) (w w' : world Any) : Prop :=
  ∀ R : world Any → world Any → Prop,
    Quiet R →
    (∀ source, keeps R (json_to_yaml json_load yaml_dump self source)) →
    R w w'.

(** A valid source next to a text file, and the same with a source that is
    not JSON. *)
Definition w_pair : world scalar :=
  world_of [(a_json, File "null"); (data_txt, File "x")] "".
Definition w_pair_broken : world scalar :=
  world_of [(a_json, File "{"); (data_txt, File "x")] "".

(** * Properties *)

(** ** Paths *)

Example suffix_a_json : suffix (mkPath false ["d"; "a.json"]) = ".json".
Proof. reflexivity. Qed.
Example suffix_dotfile : suffix (mkPath false [".json"]) = "".
Proof. reflexivity. Qed.
Example suffix_upper : suffix (mkPath false ["a.JSON"]) = ".JSON".
Proof. reflexivity. Qed.
Example suffix_two : suffix (mkPath false ["a.tar.json"]) = ".json".
Proof. reflexivity. Qed.
Example suffix_trailing_dot : suffix (mkPath false ["a."]) = "".
Proof. reflexivity. Qed.
Example with_suffix_a : with_suffix (mkPath true ["d"; "a.json"]) ".yaml"
                        = Some (mkPath true ["d"; "a.yaml"]).
Proof. reflexivity. Qed.
Example fnmatch_dotfile : fnmatch_star ".json" ".json" = true.
Proof. reflexivity. Qed.
Example fnmatch_txt : fnmatch_star ".json" "c.txt" = false.
Proof. reflexivity. Qed.

Lemma string_of_list_ascii_inj l1 l2 :
  string_of_list_ascii l1 = string_of_list_ascii l2 → l1 = l2.
Proof.
  intros H. rewrite <- (String.list_ascii_of_string_of_list_ascii l1),
    <- (String.list_ascii_of_string_of_list_ascii l2). by rewrite H.
Qed.

Lemma list_ascii_of_string_inj s1 s2 :
  list_ascii_of_string s1 = list_ascii_of_string s2 → s1 = s2.
Proof.
  intros H. rewrite <- (String.string_of_list_ascii_of_string s1),
    <- (String.string_of_list_ascii_of_string s2). by rewrite H.
Qed.

Lemma rfind_lt c l i : rfind c l = Some i → i < length l.
Proof.
  revert i. induction l as [|x l IH]; intros i; simpl; [done|].
  destruct (rfind c l) as [j|].
  - intros [= <-]. specialize (IH j eq_refl). lia.
  - case_decide; [|done]. intros [= <-]. lia.
Qed.

(** A name whose suffix is [sfx], a non-empty one, splits into a non-empty
    stem and [sfx]. *)
Lemma suffix_of_name_split nm sfx :
  suffix_of_name nm = sfx → sfx ≠ [] →
  ∃ stem, nm = stem ++ sfx ∧ stem ≠ [] ∧
          take (length nm - length sfx) nm = stem.
Proof.
  unfold suffix_of_name. intros H Hne.
  destruct (rfind "." nm) as [i|] eqn:Hi; [|congruence].
  destruct ((0 <? i) && (i <? length nm - 1)) eqn:Hc; [|congruence].
  apply andb_prop in Hc as [H0 H1].
  apply Nat.ltb_lt in H0, H1.
  exists (take i nm). subst sfx. split_and!.
  - by rewrite take_drop.
  - intros Ht. apply (f_equal length) in Ht. rewrite length_take in Ht.
    simpl in Ht. lia.
  - rewrite length_drop. f_equal. lia.
Qed.

Lemma name_nonempty_tail p :
  name p ≠ "" → tail p = removelast (tail p) ++ [name p].
Proof.
  unfold name. intros H. destruct (tail p) as [|x l] eqn:E; [done|].
  apply app_removelast_last. done.
Qed.

Lemma name_joinpath d n : name (joinpath d n) = n.
Proof. unfold name, joinpath. simpl. apply last_last. Qed.

Lemma parent_joinpath d n : parent (joinpath d n) = Some d.
Proof.
  unfold parent, joinpath. simpl. destruct d as [a t]. simpl.
  destruct (t ++ [n]) eqn:E.
  - by destruct t.
  - rewrite <- E. by rewrite removelast_last.
Qed.

Lemma parent_Some p d :
  parent p = Some d → p = joinpath d (name p) .
Proof.
  unfold parent. destruct p as [a t]. cbn [absolute tail].
  destruct t as [|x l]; [done|]. intros [= <-].
  unfold joinpath, name. cbn [absolute tail]. f_equal.
  by apply app_removelast_last.
Qed.

Lemma parent_length p d :
  parent p = Some d → length (tail p) = S (length (tail d)).
Proof.
  intros H. rewrite (parent_Some _ _ H). unfold joinpath. simpl.
  rewrite length_app. simpl. lia.
Qed.

(** The destination of a [.json] source. *)
Lemma with_suffix_json source :
  suffix source = ".json" →
  ∃ stem, stem ≠ [] ∧
    list_ascii_of_string (name source) = stem ++ dot_json ∧
    with_suffix source ".yaml"
    = Some (mkPath (absolute source)
              (removelast (tail source)
               ++ [string_of_list_ascii (stem ++ dot_yaml)])).
Proof.
  intros H. unfold suffix in H.
  apply (f_equal list_ascii_of_string) in H.
  rewrite String.list_ascii_of_string_of_list_ascii in H.
  destruct (suffix_of_name_split _ _ H) as (stem & Hnm & Hne & Htake); [done|].
  exists stem. split_and!; [done..|].
  unfold with_suffix.
  change (bool_decide (_ ∈ _)) with false.
  change (bool_decide (_ ∨ _)) with false. cbv iota.
  rewrite bool_decide_eq_false_2.
  2:{ rewrite Hnm. by destruct stem. }
  rewrite H. cbv zeta. by rewrite Htake.
Qed.

(** The destination of a [.json] source is another path, in the same
    directory, at the same depth, and the pattern [*.json] does not select
    it. *)
Lemma with_suffix_json_dest source dest :
  suffix source = ".json" → with_suffix source ".yaml" = Some dest →
  dest ≠ source ∧ parent dest = parent source ∧
  length (tail dest) = length (tail source) ∧ matches_json dest = false.
Proof.
  intros Hs Hd.
  destruct (with_suffix_json _ Hs) as (stem & Hne & Hnm & Hw).
  rewrite Hw in Hd. injection Hd as <-.
  assert (Hname : name source ≠ "").
  { intros E. rewrite E in Hnm. by destruct stem. }
  pose proof (name_nonempty_tail _ Hname) as Ht.
  set (r := removelast (tail source)) in *.
  set (n' := string_of_list_ascii (stem ++ dot_yaml)).
  assert (Hsrc : source = joinpath (mkPath (absolute source) r) (name source)).
  { destruct source as [a t]. unfold joinpath. cbn [absolute tail] in *.
    by rewrite <- Ht. }
  change (mkPath (absolute source) (r ++ [n']))
    with (joinpath (mkPath (absolute source) r) n').
  split_and!.
  - rewrite Hsrc at 2. unfold joinpath. cbn [absolute tail].
    intros [= E%app_inj_tail]. destruct E as [_ E].
    apply (f_equal list_ascii_of_string) in E. unfold n' in E.
    rewrite String.list_ascii_of_string_of_list_ascii, Hnm in E.
    by apply app_inv_head in E.
  - rewrite Hsrc at 2. by rewrite !parent_joinpath.
  - rewrite Ht. unfold joinpath. cbn [tail]. by rewrite !length_app.
  - unfold matches_json, fnmatch_star, endswith. rewrite name_joinpath.
    unfold n'. rewrite String.list_ascii_of_string_of_list_ascii.
    apply bool_decide_eq_false_2. rewrite length_app.
    replace (length stem + length dot_yaml
             - length (list_ascii_of_string ".json")) with (length stem)
      by (cbn; lia).
    by rewrite drop_app_length.
Qed.

(** ** Computations *)

Section Calls.
Context {Any : Type}.
Implicit Types (w : world Any) (R : world Any → world Any → Prop).

Lemma for_each_app {A} (l1 l2 : list A) (body : A → M Any unit) w :
  for_each (l1 ++ l2) body w
  = bind (for_each l1 body) (fun _ => for_each l2 body) w.
Proof.
  revert w. induction l1 as [|x l1 IH]; intros w; [done|].
  cbn [app for_each]. unfold bind in *.
  destruct (body x w); [apply IH|done..].
Qed.


Lemma keeps_ret R `{!Reflexive R} {A} (a : A) : keeps R (ret a).
Proof. intros w. cbn. reflexivity. Qed.

Lemma keeps_raise R `{!Reflexive R} {A} e : keeps R (raise (A:=A) e).
Proof. intros w. cbn. reflexivity. Qed.

Lemma keeps_diverge R {A} : keeps R (diverge (A:=A)).
Proof. by intros w. Qed.

Lemma keeps_bind R `{!Transitive R} {A B} (m : M Any A) (k : A → M Any B) :
  keeps R m → (∀ a, keeps R (k a)) → keeps R (bind m k).
Proof.
  intros Hm Hk w. unfold bind. specialize (Hm w).
  destruct (m w) as [a w'| |]; [|done..].
  specialize (Hk a w'). destruct (k a w'); [etrans; eauto..|done].
Qed.

Lemma keeps_for_each R `{!PreOrder R} {A} (l : list A) body :
  (∀ x, x ∈ l → keeps R (body x)) → keeps R (for_each l body).
Proof.
  induction l as [|x l IH]; intros H; cbn [for_each].
  - by apply keeps_ret, _.
  - apply keeps_bind; [apply _|apply H; left|].
    intros _. apply IH. intros y Hy. apply H. by right.
Qed.

Lemma keeps_try_except R `{!Transitive R} {A} (m : M Any A) handler :
  keeps R m → (∀ e h, handler e = Some h → keeps R h) →
  keeps R (try_except m handler).
Proof.
  intros Hm Hh w. unfold try_except. specialize (Hm w).
  destruct (m w) as [a w'|e w'|]; [done| |done].
  destruct (handler e) as [h|] eqn:E; [|done].
  specialize (Hh e h E w'). destruct (h w'); [etrans; eauto..|done].
Qed.

Lemma ends_within_bind (I : world Any → Prop) {A B}
    (m : M Any A) (k : A → M Any B) :
  ends_within I m → (∀ a, ends_within I (k a)) → ends_within I (bind m k).
Proof.
  intros Hm Hk w HI. unfold bind. specialize (Hm w HI).
  destruct (m w) as [a w'| |]; [|done..]. by apply Hk.
Qed.

Lemma ends_within_for_each (I : world Any → Prop) {A} (l : list A) body :
  (∀ x, x ∈ l → ends_within I (body x)) → ends_within I (for_each l body).
Proof.
  induction l as [|x l IH]; intros H; cbn [for_each].
  - by intros w HI.
  - apply ends_within_bind; [apply H; left|].
    intros _. apply IH. intros y Hy. apply H. by right.
Qed.

Lemma ends_within_try_except (I : world Any → Prop) {A}
    (m : M Any A) handler :
  ends_within I m → (∀ e h, handler e = Some h → ends_within I h) →
  ends_within I (try_except m handler).
Proof.
  intros Hm Hh w HI. unfold try_except. specialize (Hm w HI).
  destruct (m w) as [a w'|e w'|]; [done| |done].
  destruct (handler e) as [h|] eqn:E; [|done]. by apply (Hh e h E).
Qed.

End Calls.

(** ** The per-file converter, case by case *)

Section Conversion.
Context {Any : Type} (json_load : string → option Any)
        (yaml_dump : Any → string).
Implicit Types (w : world Any) (self : App) (source dest : Path).

Lemma json_to_yaml_wrong_extension self source w :
  suffix source ≠ ".json" →
  json_to_yaml json_load yaml_dump self source w
  = Return tt (add_log (WARNING, No_json_extension_skipping source) w).
Proof.
  intros H. unfold json_to_yaml. by rewrite bool_decide_eq_false_2.
Qed.

Lemma with_suffix_json_some source :
  suffix source = ".json" → ∃ dest, with_suffix source ".yaml" = Some dest.
Proof.
  intros Hs. destruct (with_suffix_json _ Hs) as (stem & _ & _ & Hd).
  by eexists.
Qed.

Lemma json_to_yaml_json self source dest w :
  suffix source = ".json" → with_suffix source ".yaml" = Some dest →
  json_to_yaml json_load yaml_dump self source w =
  match fs w !! source with
  | None => Raise (FileNotFoundError source) (opened source dest w)
  | Some Dir => Raise (IsADirectoryError source) (opened source dest w)
  | Some (File c) =>
      match json_load c with
      | None => Raise JSONDecodeError (opened source dest w)
      | Some v =>
          if force self then
            match fs w !! dest with
            | Some Dir =>
                Raise (IsADirectoryError dest) (writing source dest v WT w)
            | _ => Return tt (written yaml_dump source dest v WT w)
            end
          else
            match fs w !! dest with
            | Some _ =>
                Return tt (add_log (WARNING, Already_exists_skipping dest)
                                   (writing source dest v XT w))
            | None => Return tt (written yaml_dump source dest v XT w)
            end
      end
  end.
Proof.
  intros Hs Hd. unfold json_to_yaml.
  rewrite bool_decide_eq_true_2 by done. cbn [negb]. rewrite Hd.
  unfold bind, load_json_file, write_yaml_file_if_not_exists_and_not_forced,
    try_except, write_yaml_file, bind, logging_log, open_, opened.
  cbn [fs add_log add_event].
  destruct (fs w !! source) as [[c|]|]; [|done..].
  cbn [json_load_fp]. unfold decode.
  destruct (json_load c) as [v|]; [|done].
  unfold ret, writing, written, opened.
  destruct (force self); cbn [fs add_log add_event];
    destruct (fs w !! dest) as [[c'|]|] eqn:E;
    cbn beta iota; try reflexivity.
  all: cbn [yaml_dump_fp fs set_fs add_event add_log stdin stdout
            threshold log trace];
    rewrite lookup_insert_eq, insert_insert_eq;
    cbn [content_of String.append]; reflexivity.
Qed.


(** [run_source], one step unfolded. *)
Lemma run_source_unfold fuel self source w :
  run_source json_load yaml_dump fuel self source w =
  match fs w !! source with
  | Some (File _) =>
      json_to_yaml json_load yaml_dump self source
                   (add_event (EvStat source) w)
  | Some Dir =>
      for_each (json_entries (fs w) source)
        (fun file =>
           match fuel with
           | 0 => diverge
           | S fuel' => run_source json_load yaml_dump fuel' self file
           end)
        (add_event (EvScandir source)
           (add_event (EvStat source) (add_event (EvStat source) w)))
  | None =>
      Raise (AppError (Not_a_known_type source))
            (add_event (EvStat source) (add_event (EvStat source) w))
  end.
Proof.
  destruct fuel; cbn [run_source]; unfold bind, is_file, is_dir, glob_star;
    cbn [fs add_event]; destruct (fs w !! source) as [[c|]|] eqn:E;
    cbn [fs add_event]; rewrite ?E; reflexivity.
Qed.

End Conversion.

(** ** What every conversion keeps *)

Section Invariants.
Context {Any : Type} (json_load : string → option Any)
        (yaml_dump : Any → string).
Implicit Types (w : world Any) (self : App) (source dest : Path).

#[global] Instance extends_with_preorder (P : event → Prop) :
  PreOrder (extends_with (Any:=Any) P).
Proof.
  split.
  - intros w. exists []. by rewrite app_nil_r.
  - intros w1 w2 w3 (e1 & H1 & F1) (e2 & H2 & F2). exists (e1 ++ e2).
    split; [by rewrite H2, H1, app_assoc|by apply Forall_app].
Qed.

#[global] Instance streams_untouched_preorder :
  PreOrder (streams_untouched (Any:=Any)).
Proof.
  split.
  - intros w. by split_and!.
  - intros w1 w2 w3 (?&?&?) (?&?&?). split_and!; [congruence..|].
    by etrans.
Qed.

#[global] Instance kinds_kept_preorder : PreOrder kinds_kept.
Proof.
  split.
  - intros m p. destruct (m !! p) as [[c|]|]; eauto.
  - intros m1 m2 m3 H1 H2 p. specialize (H1 p).
    destruct (m1 !! p) as [[c|]|]; [| |done].
    + destruct H1 as [c' H1]. specialize (H2 p). by rewrite H1 in H2.
    + specialize (H2 p). by rewrite H1 in H2.
Qed.

#[global] Instance kinds_kept_w_preorder : PreOrder (kinds_kept_w (Any:=Any)).
Proof.
  split; [intros w; by apply kinds_kept_preorder|].
  intros w1 w2 w3. unfold kinds_kept_w. apply kinds_kept_preorder.
Qed.

#[global] Instance bounded_w_preorder h : PreOrder (bounded_w (Any:=Any) h).
Proof. split; unfold bounded_w; [by intros w|intros w1 w2 w3; tauto]. Qed.

Ltac trace_extension :=
  first
    [ exists []; split; [by rewrite app_nil_r|by constructor]
    | eexists; split;
      [ cbn; rewrite <- ?app_assoc; reflexivity
      | repeat constructor; done ] ].



Ltac conversion_cases self source w dest Hs Hd Hne :=
  intros w;
  destruct (decide (suffix source = ".json")) as [Hs|Hs];
  [ destruct (with_suffix_json_some _ Hs) as [dest Hd];
    pose proof (with_suffix_json_dest _ _ Hs Hd) as Hne;
    rewrite (json_to_yaml_json _ _ _ _ _ _ Hs Hd);
    let c := fresh "c" in
    let v := fresh "v" in
    let Es := fresh "Esrc" in
    let Ed := fresh "Edst" in
    destruct (fs w !! source) as [[c|]|] eqn:Es;
    [ destruct (json_load c) as [v|];
      [ destruct (force self);
        destruct (fs w !! dest) as [[?|]|] eqn:Ed | ]
    | | ]
  | rewrite json_to_yaml_wrong_extension by done ];
  cbn beta iota.

(** The per-file converter always ends. *)
Lemma json_to_yaml_ends self source w :
  is_Some (final (json_to_yaml json_load yaml_dump self source w)).
Proof.
  revert w. conversion_cases self source w dest Hs Hd Hne; by eexists.
Qed.


Lemma json_to_yaml_opens_only self source :
  keeps (opens_only source) (json_to_yaml json_load yaml_dump self source).
Proof.
  conversion_cases self source w dest Hs Hd Hne;
    destruct_and?;
    (split; [cbn; by rewrite ?lookup_insert_ne|trace_extension]).
Qed.

Lemma json_to_yaml_kinds self source :
  keeps kinds_kept_w (json_to_yaml json_load yaml_dump self source).
Proof.
  conversion_cases self source w dest Hs Hd Hne;
    try (intros p; cbn [fs add_log add_event opened writing];
         destruct (fs w !! p) as [[c'|]|]; by eauto);
    intros p; unfold written; cbn [fs set_fs];
    (destruct (decide (p = dest)) as [->|Hp];
     [ rewrite lookup_insert_eq; simplify_eq; repeat case_match;
       simplify_eq; by eauto
     | rewrite lookup_insert_ne by done;
       cbn [fs add_log add_event opened writing];
       destruct (fs w !! p) as [[c'|]|]; by eauto ]).
Qed.

Lemma json_to_yaml_bounded h self source :
  keeps (bounded_w h) (json_to_yaml json_load yaml_dump self source).
Proof.
  conversion_cases self source w dest Hs Hd Hne; try (by intros Hb);
    intros Hb p; unfold written; cbn [fs set_fs];
    (destruct (decide (p = dest)) as [->|Hp];
     [ intros _; destruct Hne as (_ & _ & -> & _); apply Hb; by eexists
     | rewrite lookup_insert_ne by done; apply Hb ]).
Qed.

End Invariants.

(** ** Directories *)

Lemma elem_of_iterdir (m : gmap Path node) (d p : Path) :
  p ∈ iterdir m d ↔ is_Some (m !! p) ∧ parent p = Some d.
Proof.
  unfold iterdir. rewrite list_elem_of_filter, list_elem_of_fmap. split.
  - intros (Hp & [k n] & -> & Hin). apply elem_of_map_to_list in Hin.
    split; [by eexists|done].
  - intros ([n Hn] & Hp). split; [done|]. exists (p, n).
    split; [done|]. by apply elem_of_map_to_list.
Qed.

Lemma elem_of_json_entries (m : gmap Path node) (d p : Path) :
  p ∈ json_entries m d
  ↔ is_Some (m !! p) ∧ parent p = Some d ∧ matches_json p = true.
Proof.
  unfold json_entries. rewrite list_elem_of_filter, elem_of_iterdir. tauto.
Qed.


Lemma bounded_height (m : gmap Path node) : bounded (height m) m.
Proof.
  intros p [n Hn]. unfold height.
  apply (max_list_elem_of_le (length (tail p))).
  apply list_elem_of_fmap. exists p. split; [done|].
  apply list_elem_of_fmap. exists (p, n). split; [done|].
  by apply elem_of_map_to_list.
Qed.

Lemma bounded_mono (h h' : nat) (m : gmap Path node) :
  h ≤ h' → bounded h m → bounded h' m.
Proof. intros Hle Hb p Hp. specialize (Hb p Hp). lia. Qed.

(** ** What every run over the sources keeps *)

Section Runs.
Context {Any : Type} (json_load : string → option Any)
        (yaml_dump : Any → string).
Implicit Types (w : world Any) (self : App) (source dest : Path).



#[global] Instance streams_untouched_quiet :
  Quiet (streams_untouched (Any:=Any)).
Proof.
  split; [apply _|..]; intros w x; (split_and!; [reflexivity..|]).
  1, 4: exists []; split; [by rewrite app_nil_r|by constructor].
  all: eexists; split; [reflexivity|by repeat constructor].
Qed.

#[global] Instance kinds_kept_quiet : Quiet (kinds_kept_w (Any:=Any)).
Proof.
  split; [apply _|..]; intros w x; apply (reflexivity (R:=kinds_kept)).
Qed.

#[global] Instance bounded_quiet h : Quiet (bounded_w (Any:=Any) h).
Proof. split; [apply _|..]; intros w x Hb; exact Hb. Qed.

(** *** Termination: fuel up to the height of the tree is enough *)

Lemma run_source_ends h fuel self source :
  h ≤ fuel + length (tail source) →
  ends_within (fun w => bounded h (fs w))
              (run_source json_load yaml_dump fuel self source).
Proof.
  revert source. induction fuel as [|fuel IH]; intros source Hle w Hb;
    rewrite run_source_unfold;
    destruct (fs w !! source) as [[c|]|] eqn:Hsrc; try done.
  all: try (pose proof (json_to_yaml_bounded json_load yaml_dump h self
              source (add_event (EvStat source) w)) as Hk;
            pose proof (json_to_yaml_ends json_load yaml_dump self source
              (add_event (EvStat source) w)) as [w' Hw'];
            destruct (json_to_yaml _ _ _ _ _); [by apply Hk..|done]).
  all: apply ends_within_for_each; [|done];
    intros x (Hx & Hp & _)%elem_of_json_entries;
    apply parent_length in Hp; specialize (Hb x Hx).
  - lia.
  - apply IH. lia.
Qed.

Lemma run_sources_ends h fuel self :
  h ≤ fuel →
  ends_within (fun w => bounded h (fs w))
              (run_sources json_load yaml_dump fuel self).
Proof.
  intros Hle. unfold run_sources.
  apply ends_within_bind;
    [destruct (force self); by intros w Hb|intros _].
  apply ends_within_for_each. intros source _.
  apply ends_within_bind; [by intros w Hb|intros _].
  apply run_source_ends. lia.
Qed.

End Runs.

(** ** Where a scan goes *)






Section Scan.
Context {Any : Type} (json_load : string → option Any)
        (yaml_dump : Any → string).
Implicit Types (w : world Any) (self : App) (source dest : Path).



End Scan.

(** ** The per-file converter *)

Section Converter.
Context {Any : Type} (json_load : string → option Any)
        (yaml_dump : Any → string).
Implicit Types (w : world Any) (self : App) (source dest : Path).

(** C5: for a source whose extension is not exactly [.json] the per-file
    converter returns without error and does nothing: the file system is
    as before, no system call is made (the source is not opened, so not
    parsed, and no destination is created), the streams are as before, and
    the one record logged is the wrong-extension warning. *)
Theorem C5_wrong_extension_is_noop self source w :
  suffix source ≠ ".json" →
  ∃ w', json_to_yaml json_load yaml_dump self source w = Return tt w' ∧
        fs w' = fs w ∧ trace w' = trace w ∧
        stdin w' = stdin w ∧ stdout w' = stdout w ∧
        log w' = log w ++ [(WARNING, No_json_extension_skipping source)].
Proof.
  intros Hs. rewrite json_to_yaml_wrong_extension by done.
  eexists. split; [reflexivity|]. by split_and!.
Qed.

(** C9: whatever a conversion ends in (written, skipped, failed) and
    whatever the force flag, the node of the source is as before, the
    source is the only path opened for reading, and a path opened for
    writing or written to is the destination derived from the source, a
    path other than the source. *)
Theorem C9_source_is_only_read self source w :
  ∃ w' evs,
    final (json_to_yaml json_load yaml_dump self source w) = Some w' ∧
    fs w' !! source = fs w !! source ∧
    trace w' = trace w ++ evs ∧
    (∀ p, EvOpen p RB ∈ evs → p = source) ∧
    (∀ p m, EvOpen p m ∈ evs → m ≠ RB →
            with_suffix source ".yaml" = Some p ∧ p ≠ source) ∧
    (∀ p, EvWrite p ∈ evs →
          with_suffix source ".yaml" = Some p ∧ p ≠ source).
Proof.
  destruct (json_to_yaml_ends json_load yaml_dump self source w)
    as [w' Hw'].
  pose proof (json_to_yaml_opens_only json_load yaml_dump self source w)
    as Hk.
  assert (Ho : opens_only source w w').
  { destruct (json_to_yaml _ _ _ _ _); by simplify_eq/=. }
  destruct Ho as (Hfs & evs & Htr & Hall).
  rewrite Forall_forall in Hall.
  exists w', evs. split_and!; [done..| | |].
  - intros p Hp. exact (Hall _ Hp).
  - intros p m Hp Hm. specialize (Hall _ Hp). by destruct m.
  - intros p Hp. exact (Hall _ Hp).
Qed.

(** The name [.json] has no suffix. *)
Lemma suffix_dot_json p : name p = ".json" → suffix p = "".
Proof. unfold suffix. by intros ->. Qed.

(** C10: a regular file whose whole name is [.json] has an empty suffix,
    so handing it to [run_source] ends in the wrong-extension skip: the
    file system is as before, the path is examined but never opened, and
    the one record logged is the warning. *)
Theorem C10_dot_json_file_is_skipped fuel self p c w :
  name p = ".json" → fs w !! p = Some (File c) →
  suffix p = "" ∧
  ∃ w', run_source json_load yaml_dump fuel self p w = Return tt w' ∧
        fs w' = fs w ∧ trace w' = trace w ++ [EvStat p] ∧
        log w' = log w ++ [(WARNING, No_json_extension_skipping p)].
Proof.
  intros Hn Hp. pose proof (suffix_dot_json _ Hn) as Hs.
  split; [done|]. rewrite run_source_unfold, Hp.
  rewrite json_to_yaml_wrong_extension by (by rewrite Hs).
  eexists. split; [reflexivity|]. by split_and!.
Qed.




End Converter.

(** ** Sources, directories and the run as a whole *)

Section Orchestrator.
Context {Any : Type} (json_load : string → option Any)
        (yaml_dump : Any → string).
Implicit Types (w : world Any) (self : App) (source dest : Path).

Lemma for_each_ext {A} (l : list A) (f g : A → M Any unit) w :
  (∀ x w', f x w' = g x w') → for_each l f w = for_each l g w.
Proof.
  intros H. revert w. induction l as [|x l IH]; intros w; [done|].
  cbn [for_each]. unfold bind. rewrite H.
  destruct (g x w); [apply IH|done..].
Qed.

(** Of [self], a conversion reads the force flag only. *)
Lemma run_source_force fuel self self' source w :
  force self = force self' →
  run_source json_load yaml_dump fuel self source w
  = run_source json_load yaml_dump fuel self' source w.
Proof.
  intros Hf. revert source w.
  induction fuel as [|fuel IH]; intros source w;
    rewrite !run_source_unfold; destruct (fs w !! source) as [[c|]|];
    try reflexivity; try (unfold json_to_yaml; by rewrite Hf).
  apply for_each_ext. intros x w'. apply IH.
Qed.

Lemma main_unfold fuel args w :
  main json_load yaml_dump fuel args w
  = try_except
      (run json_load yaml_dump fuel
           (mkApp (source_args args) (force_flag args)))
      (fun e =>
         match e with
         | AppError msg => Some (logging_log ERROR msg)
         | _ => None
         end)
      (preamble args w).
Proof. reflexivity. Qed.

(** An invalid source ends the run, and [main] turns its error into a
    log record. *)
Lemma invalid_source_ends_run fuel args pre bad post w w1 :
  source_args args = pre ++ bad :: post →
  run_sources json_load yaml_dump fuel (mkApp pre (force_flag args))
              (preamble args w) = Return tt w1 →
  fs w1 !! bad = None →
  main json_load yaml_dump fuel args w
  = Return tt
      (add_log (ERROR, Not_a_known_type bad)
         (add_event (EvStat bad)
            (add_event (EvStat bad)
               (add_log (DEBUG, Processing bad) w1)))).
Proof.
  destruct args as [lvl f srcs]. cbn [source_args force_flag].
  intros -> Hpre Hbad. rewrite main_unfold.
  set (w0 := preamble _ w) in *. clearbody w0.
  unfold try_except, run. cbn [sources force source_args force_flag].
  rewrite length_app. cbn [length].
  replace (0 <? length pre + S (length post)) with true
    by (symmetry; apply Nat.ltb_lt; lia).
  unfold run_sources in *. cbn [sources force] in *.
  unfold bind at 1. unfold bind at 1 in Hpre.
  destruct (if f then _ else _) as [[] w2| |]; [|done..].
  rewrite for_each_app. unfold bind at 1.
  rewrite (for_each_ext _ _
             (λ source, bind (logging_log DEBUG (Processing source))
                (λ _, run_source json_load yaml_dump fuel
                        (mkApp pre f) source)))
    by (intros x w'; unfold bind, logging_log;
        by apply run_source_force).
  rewrite Hpre. cbn [for_each]. unfold bind at 1. unfold bind at 1.
  unfold logging_log at 1. rewrite run_source_unfold.
  cbn [fs add_log]. by rewrite Hbad.
Qed.

(** C2, as the code has it: when the arguments before an invalid one
    were processed without error and the invalid one is neither a file
    nor a directory, the run returns without raising; it ends in the
    world those arguments left, plus the two tests on the invalid path
    and the two records about it, the last one its error.  The arguments
    after it leave no trace: they are not processed. *)
Theorem C2_invalid_source_ends_run fuel args pre bad post w w1 :
  source_args args = pre ++ bad :: post →
  run_sources json_load yaml_dump fuel (mkApp pre (force_flag args))
              (preamble args w) = Return tt w1 →
  fs w1 !! bad = None →
  main json_load yaml_dump fuel args w
  = Return tt
      (add_log (ERROR, Not_a_known_type bad)
         (add_event (EvStat bad)
            (add_event (EvStat bad)
               (add_log (DEBUG, Processing bad) w1)))).
Proof. apply invalid_source_ends_run. Qed.





(** C8, as the code has it: the status is set by the interpreter alone.
    An exception that leaves [main] gives status 1: malformed JSON does,
    on standard input or in a source file.  An [AppError] never leaves
    [main]: it is logged as an error and [main] returns, so a run that
    ends on an invalid source reports status 0. *)
Theorem C8_exit_status fuel args w :
  let app := mkApp (source_args args) (force_flag args) in
  let o := main json_load yaml_dump fuel args w in
  match run json_load yaml_dump fuel app (preamble args w) with
  | Return a w' => o = Return a w' ∧ exit_status o = Some 0
  | Raise (AppError msg) w' =>
      o = Return tt (add_log (ERROR, msg) w') ∧ exit_status o = Some 0
  | Raise e w' => o = Raise e w' ∧ exit_status o = Some 1
  | OutOfFuel => o = OutOfFuel
  end ∧
  (source_args args = [] → json_load (stdin w) = None →
   exit_status o = Some 1) ∧
  (∀ src post c,
      source_args args = src :: post → suffix src = ".json" →
      fs w !! src = Some (File c) → json_load c = None →
      exit_status o = Some 1) ∧
  (∀ bad post,
      source_args args = bad :: post → fs w !! bad = None →
      exit_status o = Some 0 ∧
      last (log (default w (final o))) = Some (ERROR, Not_a_known_type bad)).
Proof.
  intros app o. split_and!.
  - unfold o. rewrite main_unfold. fold app. unfold try_except.
    destruct (run _ _ _ _ _) as [a w'|[]|]; by cbn.
  - intros Hnil Hbad. unfold o. rewrite main_unfold.
    unfold try_except, run. cbn [sources]. rewrite Hnil.
    cbn [length Nat.ltb Nat.leb].
    unfold run_streams, bind, json_load_fp, decode, logging_log, ret,
      raise.
    cbn [force].
    by destruct (force_flag args); cbn [stdin preamble add_log set_threshold];
      rewrite Hbad.
  - intros src post c Hargs Hs Hsrc Hbad. unfold o. rewrite main_unfold.
    destruct (with_suffix_json_some _ Hs) as [dest Hd].
    unfold try_except, run, run_sources. cbn [sources force].
    rewrite Hargs. cbn [length Nat.ltb Nat.leb for_each].
    unfold bind at 1.
    assert (Hstep : ∀ w0, fs w0 = fs w →
              ∃ w', bind (logging_log DEBUG (Processing src))
                      (λ _, run_source json_load yaml_dump fuel
                              {| sources := src :: post;
                                 force := force_flag args |} src) w0
                    = Raise JSONDecodeError w').
    { intros w0 H0. unfold bind, logging_log. rewrite run_source_unfold.
      cbn [fs add_log]. rewrite H0, Hsrc.
      rewrite (json_to_yaml_json _ _ _ _ _ _ Hs Hd).
      cbn [fs add_event add_log]. rewrite H0, Hsrc, Hbad. by eexists. }
    assert (Hann : ∃ w1,
              (if force_flag args
               then logging_log INFO Forcing_overwrite else ret tt)
                (preamble args w) = Return tt w1 ∧ fs w1 = fs w).
    { destruct (force_flag args); by eexists. }
    destruct Hann as (w1 & -> & Hw1). unfold bind at 1.
    destruct (Hstep w1 Hw1) as [w' ->]. reflexivity.
  - intros bad post Hargs Hbad.
    assert (Hrun : run_sources json_load yaml_dump fuel
                     (mkApp [] (force_flag args)) (preamble args w)
                   = Return tt (if force_flag args
                                then add_log (INFO, Forcing_overwrite)
                                             (preamble args w)
                                else preamble args w)).
    { unfold run_sources, bind. cbn [force sources for_each].
      by destruct (force_flag args). }
    unfold o. erewrite (invalid_source_ends_run _ _ [] bad post);
      [| done | exact Hrun | by destruct (force_flag args)].
    split; [done|]. cbn [final default log add_log add_event].
    apply last_snoc.
Qed.

End Orchestrator.

(** ** The claims on concrete runs *)

(** C2 fails as stated: with an invalid argument first, the valid [.json]
    argument after it is not processed: the run returns with the file system
    as it was, no destination created and the valid source never examined. *)
Lemma C2_counterexample :
  let args := mkNamespace WARNING false [missing; a_json] in
  fs w_fresh !! missing = None ∧
  fs w_fresh !! a_json = Some (File "null") ∧
  suffix a_json = ".json" ∧ scalar_load "null" = Some SNull ∧
  ∃ w', main scalar_load scalar_dump 1 args w_fresh = Return tt w' ∧
        fs w' !! a_yaml = None ∧
        trace w' = [EvStat missing; EvStat missing].
Proof.
  cbv zeta. split_and!; [vm_compute; reflexivity..|].
  eexists. split; [vm_compute; reflexivity|].
  split_and!; vm_compute; reflexivity.
Qed.

Lemma C2_witness :
  let args := mkNamespace WARNING false [a_json; missing; data_txt] in
  let w1 := default w_fresh
              (final (run_sources scalar_load scalar_dump 1
                        (mkApp [a_json] false) (preamble args w_fresh))) in
  fs w1 !! a_yaml = Some (File (scalar_dump SNull)) ∧
  fs w1 !! missing = None ∧
  main scalar_load scalar_dump 1 args w_fresh
  = Return tt
      (add_log (ERROR, Not_a_known_type missing)
         (add_event (EvStat missing)
            (add_event (EvStat missing)
               (add_log (DEBUG, Processing missing) w1)))).
Proof.
  cbv zeta. split; [vm_compute; reflexivity|]. split; [vm_compute; reflexivity|].
  apply (C2_invalid_source_ends_run scalar_load scalar_dump 1
           (mkNamespace WARNING false [a_json; missing; data_txt])
           [a_json] missing [data_txt] w_fresh);
    vm_compute; reflexivity.
Defined.





Lemma C5_witness :
  ∃ w', json_to_yaml scalar_load scalar_dump unforced data_txt w_fresh
        = Return tt w' ∧
        fs w' = fs w_fresh ∧ trace w' = trace w_fresh ∧
        stdin w' = stdin w_fresh ∧ stdout w' = stdout w_fresh ∧
        log w' = log w_fresh ++ [(WARNING, No_json_extension_skipping data_txt)].
Proof.
  apply (C5_wrong_extension_is_noop scalar_load scalar_dump unforced
           data_txt w_fresh).
  vm_compute. discriminate.
Defined.




(** C8 fails as stated: the run that ends on an invalid source logs the
    error and reports status 0. *)
Lemma C8_counterexample :
  let o := main scalar_load scalar_dump 1
             (mkNamespace WARNING false [missing]) w_fresh in
  fs w_fresh !! missing = None ∧
  exit_status o = Some 0 ∧
  ∃ w', o = Return tt w' ∧
        emitted w' = [(ERROR, Not_a_known_type missing)].
Proof.
  cbv zeta. split_and!; [vm_compute; reflexivity..|].
  eexists. split; [vm_compute; reflexivity|]. vm_compute; reflexivity.
Qed.

Lemma C8_witness :
  exit_status (main scalar_load scalar_dump 0
                 (mkNamespace WARNING false []) (world_of [] "{")) = Some 1 ∧
  exit_status (main scalar_load scalar_dump 1
                 (mkNamespace WARNING false [a_json]) w_broken) = Some 1 ∧
  exit_status (main scalar_load scalar_dump 1
                 (mkNamespace WARNING false [missing; a_json]) w_fresh)
  = Some 0.
Proof.
  split_and!.
  - destruct (C8_exit_status scalar_load scalar_dump 0
                (mkNamespace WARNING false []) (world_of [] "{"))
      as (_ & H & _).
    apply H; vm_compute; reflexivity.
  - destruct (C8_exit_status scalar_load scalar_dump 1
                (mkNamespace WARNING false [a_json]) w_broken)
      as (_ & _ & H & _).
    apply (H a_json [] "{"); vm_compute; reflexivity.
  - destruct (C8_exit_status scalar_load scalar_dump 1
                (mkNamespace WARNING false [missing; a_json]) w_fresh)
      as (_ & _ & _ & H).
    apply (H missing [a_json]); vm_compute; reflexivity.
Defined.

Lemma C9_witness :
  ∃ w' evs,
    final (json_to_yaml scalar_load scalar_dump forced a_json w_stale)
    = Some w' ∧
    fs w' !! a_json = fs w_stale !! a_json ∧
    trace w' = trace w_stale ++ evs ∧
    (∀ p, EvOpen p RB ∈ evs → p = a_json) ∧
    (∀ p m, EvOpen p m ∈ evs → m ≠ RB →
            with_suffix a_json ".yaml" = Some p ∧ p ≠ a_json) ∧
    (∀ p, EvWrite p ∈ evs →
          with_suffix a_json ".yaml" = Some p ∧ p ≠ a_json).
Proof.
  exact (C9_source_is_only_read scalar_load scalar_dump forced a_json
           w_stale).
Defined.

Lemma C10_witness :
  suffix hidden_json = "" ∧
  ∃ w', run_source scalar_load scalar_dump 0 (mkApp [hidden_json] false)
                   hidden_json w_flat = Return tt w' ∧
        fs w' = fs w_flat ∧ trace w' = trace w_flat ++ [EvStat hidden_json] ∧
        log w' = log w_flat
                 ++ [(WARNING, No_json_extension_skipping hidden_json)].
Proof.
  apply (C10_dot_json_file_is_skipped scalar_load scalar_dump 0
           (mkApp [hidden_json] false) hidden_json "null" w_flat);
    vm_compute; reflexivity.
Defined.

(** ** Runs from the specification's list of tests *)

(** Directory mode: of [b.json], [c.txt] and [.json] in a directory, only
    [b.json] gets a YAML sibling. *)
Example directory_mode :
  ∃ w', run_source scalar_load scalar_dump 1 (mkApp [dir_d] false)
                   dir_d w_flat = Return tt w' ∧
        fs w' !! rel ["d"; "b.yaml"]
        = Some (File (scalar_dump (SBool true))) ∧
        fs w' !! rel ["d"; "c.yaml"] = None ∧
        fs w' !! rel ["d"; ".yaml"] = None.
Proof.
  eexists. split; [vm_compute; reflexivity|].
  split_and!; vm_compute; reflexivity.
Qed.

(** Stream mode: the document on standard input comes out as YAML. *)
Example stream_mode :
  ∃ w', main scalar_load scalar_dump 0 (mkNamespace WARNING false []) w_piped
        = Return tt w' ∧
        stdout w' = scalar_dump (SBool true) ∧ stdin w' = "".
Proof.
  eexists. split; [vm_compute; reflexivity|].
  split; vm_compute; reflexivity.
Qed.

(** Skip, then overwrite: without the force flag an older destination
    stays, with it the destination is rewritten. *)
Example skip_then_force :
  ∃ w1 w2,
    json_to_yaml scalar_load scalar_dump unforced a_json w_stale
    = Return tt w1 ∧
    fs w1 !! a_yaml = Some (File "old") ∧
    json_to_yaml scalar_load scalar_dump forced a_json w1 = Return tt w2 ∧
    fs w2 !! a_yaml = Some (File (scalar_dump SNull)).
Proof.
  do 2 eexists. split; [vm_compute; reflexivity|].
  split; [vm_compute; reflexivity|].
  split; vm_compute; reflexivity.
Qed.

(** The extension test is case-sensitive. *)
Example upper_case_extension :
  ∃ w', json_to_yaml scalar_load scalar_dump unforced (rel ["a.JSON"])
                     (world_of [(rel ["a.JSON"], File "null")] "")
        = Return tt w' ∧
        log w' = [(WARNING, No_json_extension_skipping (rel ["a.JSON"]))] ∧
        trace w' = [].
Proof.
  eexists. split; [vm_compute; reflexivity|].
  split; vm_compute; reflexivity.
Qed.

(** * Further properties *)

(** ** Extensions *)

Lemma rfind_app_Some c l1 l2 j :
  rfind c l2 = Some j → rfind c (l1 ++ l2) = Some (length l1 + j).
Proof.
  intros H. induction l1 as [|x l1 IH]; [done|].
  cbn [app rfind length]. by rewrite IH.
Qed.

(** A non-empty stem followed by a dot and a dot-free, non-empty
    extension has that extension as its suffix. *)
Lemma suffix_of_name_app stem ext :
  stem ≠ [] → ext ≠ [] → rfind "."%char ext = None →
  suffix_of_name (stem ++ "."%char :: ext) = "."%char :: ext.
Proof.
  intros Hs He Hr. unfold suffix_of_name.
  rewrite (rfind_app_Some _ stem _ 0)
    by (cbn [rfind]; rewrite Hr; by rewrite decide_True).
  rewrite Nat.add_0_r, length_app. cbn [length].
  replace (0 <? length stem) with true
    by (symmetry; apply Nat.ltb_lt; destruct stem; [done|cbn; lia]).
  replace (length stem <? length stem + S (length ext) - 1) with true
    by (symmetry; apply Nat.ltb_lt; destruct ext; [done|cbn; lia]).
  cbn [andb]. by rewrite drop_app_length.
Qed.

(** The destination of a [.json] source has the extension [.yaml], and
    putting [.json] back gives the source again. *)
Lemma with_suffix_round_trip source dest :
  suffix source = ".json" → with_suffix source ".yaml" = Some dest →
  suffix dest = ".yaml" ∧ with_suffix dest ".json" = Some source.
Proof.
  intros Hs Hd.
  destruct (with_suffix_json _ Hs) as (stem & Hne & Hnm & Hw).
  rewrite Hw in Hd. injection Hd as <-.
  assert (Hname : name source ≠ "").
  { intros E. rewrite E in Hnm. by destruct stem. }
  pose proof (name_nonempty_tail _ Hname) as Ht.
  set (r := removelast (tail source)) in *.
  assert (Hyaml : suffix_of_name (stem ++ dot_yaml) = dot_yaml)
    by (by apply suffix_of_name_app).
  assert (Hdn : list_ascii_of_string
                  (name (mkPath (absolute source)
                           (r ++ [string_of_list_ascii (stem ++ dot_yaml)])))
                = stem ++ dot_yaml).
  { unfold name. cbn [tail]. rewrite last_last.
    apply String.list_ascii_of_string_of_list_ascii. }
  split.
  - unfold suffix. by rewrite Hdn, Hyaml.
  - unfold with_suffix. rewrite Hdn.
    change (bool_decide (_ ∈ _)) with false.
    change (bool_decide (_ ∨ _)) with false. cbv iota.
    rewrite bool_decide_eq_false_2 by (by destruct stem).
    rewrite Hyaml. cbn [absolute tail]. rewrite removelast_last.
    rewrite length_app, Nat.add_sub, take_app_length.
    change (list_ascii_of_string ".json") with dot_json.
    rewrite <- Hnm, String.string_of_list_ascii_of_string, <- Ht.
    by destruct source.
Qed.

(** Two [.json] sources with the same destination are the same source. *)
Lemma destination_injective s1 s2 dest :
  suffix s1 = ".json" → suffix s2 = ".json" →
  with_suffix s1 ".yaml" = Some dest → with_suffix s2 ".yaml" = Some dest →
  s1 = s2.
Proof.
  intros H1 H2 D1 D2.
  destruct (with_suffix_round_trip _ _ H1 D1) as [_ R1].
  destruct (with_suffix_round_trip _ _ H2 D2) as [_ R2].
  congruence.
Qed.

(** ** What a whole run keeps *)

Section WholeRun.
Context {Any : Type} (json_load : string → option Any)
        (yaml_dump : Any → string).
Implicit Types (w : world Any) (self : App) (source dest : Path).

Ltac conversion_cases source w dest Hs Hd Hne Hf Esrc Edst :=
  intros w;
  destruct (decide (suffix source = ".json")) as [Hs|Hs];
  [ destruct (with_suffix_json_some _ Hs) as [dest Hd];
    pose proof (with_suffix_json_dest _ _ Hs Hd) as Hne;
    rewrite (json_to_yaml_json _ _ _ _ _ _ Hs Hd);
    let c := fresh "c" in
    let v := fresh "v" in
    destruct (fs w !! source) as [[c|]|] eqn:Esrc;
    [ destruct (json_load c) as [v|];
      [ destruct (force _) eqn:Hf;
        destruct (fs w !! dest) as [[?|]|] eqn:Edst | ]
    | | ]
  | rewrite json_to_yaml_wrong_extension by done ];
  cbn beta iota.

#[global] Instance on_fs_preorder (R : relation (gmap Path node))
  `{!PreOrder R} : PreOrder (on_fs (Any:=Any) R).
Proof.
  split; [intros w; apply (reflexivity (R:=R))|].
  intros w1 w2 w3. unfold on_fs. apply (transitivity (R:=R)).
Qed.

#[global] Instance on_fs_quiet (R : relation (gmap Path node))
  `{!PreOrder R} : Quiet (on_fs (Any:=Any) R).
Proof. split; [apply _|..]; intros w x; apply (reflexivity (R:=R)). Qed.

#[global] Instance yaml_only_preorder : PreOrder yaml_only.
Proof.
  split; [by intros m p|].
  intros m1 m2 m3 H1 H2 p Hp. by rewrite (H2 p Hp), (H1 p Hp).
Qed.

(** As [run_source_keeps], for the one [self] at hand. *)
Lemma run_source_keeps_for R `{!Quiet R} self :
  (∀ source, keeps R (json_to_yaml json_load yaml_dump self source)) →
  ∀ fuel source, keeps R (run_source json_load yaml_dump fuel self source).
Proof.
  intros Hconv fuel. induction fuel as [|fuel IH]; intros source w;
    rewrite run_source_unfold; destruct (fs w !! source) as [[c|]|].
  all: try (etrans; [apply quiet_stat|]; apply quiet_stat).
  all: try (specialize (Hconv source (add_event (EvStat source) w));
            destruct (json_to_yaml _ _ _ _ _); [| |done];
            (etrans; [apply quiet_stat|done])).
  all: match goal with
       | |- context [for_each ?l ?b ?w0] =>
           assert (Hl : keeps R (for_each l b));
           [ apply keeps_for_each; [apply _|intros x _]
           | specialize (Hl w0); destruct (for_each l b w0); [| |done];
             (etrans; [|exact Hl]);
             (etrans; [apply quiet_stat|]);
             (etrans; [apply quiet_stat|apply quiet_scandir]) ]
       end.
  - apply keeps_diverge.
  - apply IH.
Qed.

Lemma run_streams_ends self w :
  ∃ w', final (run_streams json_load yaml_dump self w) = Some w' ∧
        fs w' = fs w.
Proof.
  unfold run_streams, bind, json_load_fp, yaml_dump_fp, decode,
    logging_log, ret, raise.
  destruct (force self); cbn [stdin add_log];
    destruct (json_load (stdin w)); by eexists.
Qed.

Lemma main_keeps_on_fs (R : relation (gmap Path node)) `{!PreOrder R}
    fuel args :
  (∀ source,
      keeps (on_fs R)
        (json_to_yaml json_load yaml_dump
           (mkApp (source_args args) (force_flag args)) source)) →
  keeps (on_fs R) (main json_load yaml_dump fuel args).
Proof.
  intros Hconv w. rewrite main_unfold.
  set (app := mkApp _ _) in *.
  assert (Hk : keeps (on_fs R)
                 (try_except (run json_load yaml_dump fuel app)
                    (fun e => match e with
                              | AppError msg => Some (logging_log ERROR msg)
                              | _ => None
                              end))).
  { apply keeps_try_except; [apply _| |].
    - intros w0. unfold run. destruct (0 <? _).
      + unfold run_sources.
        assert (Hs : keeps (on_fs R)
                  (bind (if force app
                         then logging_log INFO Forcing_overwrite
                         else ret ())
                     (λ _, for_each (sources app)
                        (λ source,
                           bind (logging_log DEBUG (Processing source))
                             (λ _, run_source json_load yaml_dump fuel app
                                     source))))).
        { apply keeps_bind; [apply _| |intros _].
          - destruct (force app);
              [intros w1; apply quiet_log|apply keeps_ret, _].
          - apply keeps_for_each; [apply _|intros source _].
            apply keeps_bind; [apply _|intros w1; apply quiet_log|intros _].
            apply (run_source_keeps_for (on_fs R) app Hconv). }
        apply Hs.
      + destruct (run_streams_ends app w0) as (w' & Hw' & Hfs).
        destruct (run_streams _ _ _ _); simplify_eq/=;
          unfold on_fs; rewrite Hfs; reflexivity.
    - intros [msg| | | | | |] h [= <-]. intros w0. apply quiet_log. }
  specialize (Hk (preamble args w)).
  destruct (try_except _ _ _); [| |done];
    (etrans; [|exact Hk]); apply (reflexivity (R:=R)).
Qed.

Lemma main_ends fuel args w :
  height (fs w) ≤ fuel →
  is_Some (final (main json_load yaml_dump fuel args w)).
Proof.
  intros Hh. rewrite main_unfold. set (app := mkApp _ _).
  assert (He : ends_within (fun w0 => bounded fuel (fs w0))
                 (try_except (run json_load yaml_dump fuel app)
                    (fun e => match e with
                              | AppError msg => Some (logging_log ERROR msg)
                              | _ => None
                              end))).
  { apply ends_within_try_except.
    - intros w0 H0. unfold run. destruct (0 <? _).
      + by apply run_sources_ends.
      + destruct (run_streams_ends app w0) as (w' & Hw' & Hfs).
        destruct (run_streams _ _ _ _); simplify_eq/=; by rewrite Hfs.
    - intros [msg| | | | | |] h [= <-]; by intros w0 H0. }
  specialize (He (preamble args w)).
  destruct (try_except _ _ _); [by eexists..|].
  exfalso. apply He. cbn. eapply bounded_mono, bounded_height. done.
Qed.

Lemma json_to_yaml_yaml_only self source :
  keeps (on_fs yaml_only) (json_to_yaml json_load yaml_dump self source).
Proof.
  conversion_cases source w dest Hs Hd Hne Hf Esrc Edst;
    try (by intros p Hp);
    intros p Hp; cbn [written fs set_fs];
    destruct (with_suffix_round_trip _ _ Hs Hd) as [Hy _];
    apply lookup_insert_ne; congruence.
Qed.

Lemma json_to_yaml_unforced_grows self source :
  force self = false →
  keeps (on_fs (⊆)) (json_to_yaml json_load yaml_dump self source).
Proof.
  intros Hforce.
  conversion_cases source w dest Hs Hd Hne Hf Esrc Edst;
    try (apply (reflexivity (R:=(⊆@{gmap Path node}))));
    try congruence.
  unfold on_fs. cbn [written fs set_fs]. by apply insert_subseteq.
Qed.

End WholeRun.

(** ** The write policy and the per-file converter, in full *)

Section Policy.
Context {Any : Type} (json_load : string → option Any)
        (yaml_dump : Any → string).
Implicit Types (w : world Any) (self : App) (source dest : Path).

Ltac conversion_cases source w dest Hs Hd Hne Hf Esrc Edst :=
  intros w;
  destruct (decide (suffix source = ".json")) as [Hs|Hs];
  [ destruct (with_suffix_json_some _ Hs) as [dest Hd];
    pose proof (with_suffix_json_dest _ _ Hs Hd) as Hne;
    rewrite (json_to_yaml_json _ _ _ _ _ _ Hs Hd);
    let c := fresh "c" in
    let v := fresh "v" in
    destruct (fs w !! source) as [[c|]|] eqn:Esrc;
    [ destruct (json_load c) as [v|] eqn:?;
      [ destruct (force _) eqn:Hf;
        destruct (fs w !! dest) as [[?|]|] eqn:Edst | ]
    | | ]
  | rewrite json_to_yaml_wrong_extension by done ];
  cbn beta iota.




End Policy.

(** ** Whole runs *)

Section Outcomes.
Context {Any : Type} (json_load : string → option Any)
        (yaml_dump : Any → string).
Implicit Types (w : world Any) (self : App) (source dest : Path).

Ltac conversion_cases source w dest Hs Hd Hne Hf Esrc Edst :=
  intros w;
  destruct (decide (suffix source = ".json")) as [Hs|Hs];
  [ destruct (with_suffix_json_some _ Hs) as [dest Hd];
    pose proof (with_suffix_json_dest _ _ Hs Hd) as Hne;
    rewrite (json_to_yaml_json _ _ _ _ _ _ Hs Hd);
    let c := fresh "c" in
    let v := fresh "v" in
    destruct (fs w !! source) as [[c|]|] eqn:Esrc;
    [ destruct (json_load c) as [v|] eqn:?;
      [ destruct (force _) eqn:Hf;
        destruct (fs w !! dest) as [[?|]|] eqn:Edst | ]
    | | ]
  | rewrite json_to_yaml_wrong_extension by done ];
  cbn beta iota.

#[global] Instance converted_preorder :
  PreOrder (converted json_load yaml_dump).
Proof.
  split; [intros m p; by left|].
  intros m1 m2 m3 H1 H2 p.
  destruct (H2 p) as [E2|(s & c & v & Hs & Hx & Hd & Hv & Hp)].
  - rewrite E2. destruct (H1 p) as [E1|H]; [by left|by right].
  - right. exists s, c, v. split_and!; [|done..].
    destruct (H1 s) as [E1|(s' & c' & v' & _ & Hx' & Hd' & _)];
      [congruence|].
    destruct (with_suffix_round_trip _ _ Hx' Hd') as [Hy _]. congruence.
Qed.

Lemma json_to_yaml_converted self source :
  keeps (on_fs (converted json_load yaml_dump))
        (json_to_yaml json_load yaml_dump self source).
Proof.
  conversion_cases source w dest Hs Hd Hne Hf Esrc Edst;
    try (intros p; by left);
    intros p; cbn [written fs set_fs];
    (destruct (decide (p = dest)) as [->|Hp];
     [ right; eexists source, _, _;
       split_and!; [done..|apply lookup_insert_eq]
     | left; by apply lookup_insert_ne ]).
Qed.

(** *** Exceptions *)




Lemma json_to_yaml_failure self source c w e w' :
  fs w !! source = Some (File c) →
  json_to_yaml json_load yaml_dump self source w = Raise e w' →
  run_failure (force self) (fs w') e.
Proof.
  intros Hsrc. revert w Hsrc.
  conversion_cases source w dest Hs Hd Hne Hf Esrc Edst;
    intros Hsrc [=]; simplify_eq; [|by left].
  right. split; [done|]. by exists source, dest.
Qed.


End Outcomes.

Section Runs2.
Context {Any : Type} (json_load : string → option Any)
        (yaml_dump : Any → string).
Implicit Types (w : world Any) (self : App) (source dest : Path).



(** X6: a source that does not decode ends the run: the decoding error leaves
    [main] from the world in which the source was opened, and the arguments
    after it are not processed. *)
Theorem malformed_source_ends_run fuel args pre src post c w w1 :
  source_args args = pre ++ src :: post →
  run_sources json_load yaml_dump fuel (mkApp pre (force_flag args))
              (preamble args w) = Return tt w1 →
  fs w1 !! src = Some (File c) → suffix src = ".json" →
  json_load c = None →
  ∃ dest, with_suffix src ".yaml" = Some dest ∧
    main json_load yaml_dump fuel args w
    = Raise JSONDecodeError
        (opened src dest
           (add_event (EvStat src) (add_log (DEBUG, Processing src) w1))).
Proof.
  destruct args as [lvl f srcs]. cbn [source_args force_flag].
  intros -> Hpre Hsrc Hs Hbad.
  destruct (with_suffix_json_some _ Hs) as [dest Hd].
  exists dest. split; [done|]. rewrite main_unfold.
  set (w0 := preamble _ w) in *. clearbody w0.
  unfold try_except, run. cbn [sources force source_args force_flag].
  rewrite length_app. cbn [length].
  replace (0 <? length pre + S (length post)) with true
    by (symmetry; apply Nat.ltb_lt; lia).
  unfold run_sources in *. cbn [sources force] in *.
  unfold bind at 1. unfold bind at 1 in Hpre.
  destruct (if f then _ else _) as [[] w2| |]; [|done..].
  rewrite for_each_app. unfold bind at 1.
  rewrite (for_each_ext _ _
             (λ source, bind (logging_log DEBUG (Processing source))
                (λ _, run_source json_load yaml_dump fuel
                        (mkApp pre f) source)))
    by (intros x w'; unfold bind, logging_log;
        by apply run_source_force).
  rewrite Hpre. cbn [for_each]. unfold bind at 1. unfold bind at 1.
  unfold logging_log at 1. rewrite run_source_unfold.
  cbn [fs add_log]. rewrite Hsrc.
  rewrite (json_to_yaml_json _ _ _ _ _ _ Hs Hd).
  cbn [fs add_event add_log]. by rewrite Hsrc, Hbad.
Qed.

(** X7: the arguments are handled in order, each from the world the ones
    before it left: a run over [l1 ++ l2] is the run over [l1] followed by
    the loop over [l2]. *)
Theorem run_sources_concat fuel f l1 l2 w :
  run_sources json_load yaml_dump fuel (mkApp (l1 ++ l2) f) w
  = bind (run_sources json_load yaml_dump fuel (mkApp l1 f))
         (fun _ => process json_load yaml_dump fuel (mkApp l2 f) l2) w.
Proof.
  unfold run_sources, process. cbn [sources force].
  unfold bind at 1 3 4.
  destruct (if f then _ else _) as [[] w0| |]; [|done..].
  rewrite for_each_app. unfold bind at 1.
  rewrite (for_each_ext l1 _
             (λ source, bind (logging_log DEBUG (Processing source))
                (λ _, run_source json_load yaml_dump fuel
                        (mkApp l1 f) source)))
    by (intros x w'; unfold bind, logging_log;
        by apply run_source_force).
  destruct (for_each l1 _ w0) as [[] w1| |]; [|done..].
  apply for_each_ext. intros x w'. unfold bind, logging_log.
  by apply run_source_force.
Qed.

(** X8: a regular file with another extension among the arguments does not
    stop the run: the loop goes on with the next argument, from a world
    where only the test of the file and two log records were added. *)
Theorem wrong_extension_continues fuel self src post c w :
  fs w !! src = Some (File c) → suffix src ≠ ".json" →
  process json_load yaml_dump fuel self (src :: post) w
  = process json_load yaml_dump fuel self post
      (add_log (WARNING, No_json_extension_skipping src)
         (add_event (EvStat src) (add_log (DEBUG, Processing src) w))).
Proof.
  intros Hsrc Hs. unfold process. cbn [for_each].
  unfold bind at 1. unfold bind at 1. unfold logging_log at 1.
  rewrite run_source_unfold. cbn [fs add_log]. rewrite Hsrc.
  by rewrite json_to_yaml_wrong_extension.
Qed.


(** X10: what a run never does: a path whose extension is not [.yaml] keeps its
    node, so no source is ever modified; no path is removed; a directory
    stays a directory and a regular file a regular file. *)
Theorem run_never_harms fuel args w :
  (height (fs w) ≤ fuel →
   is_Some (final (main json_load yaml_dump fuel args w))) ∧
  ∀ w', final (main json_load yaml_dump fuel args w) = Some w' →
        (∀ p, suffix p ≠ ".yaml" → fs w' !! p = fs w !! p) ∧
        kinds_kept (fs w) (fs w').
Proof.
  split; [apply main_ends|]. intros w' Hw'.
  pose proof (main_keeps_on_fs json_load yaml_dump yaml_only fuel args
                (json_to_yaml_yaml_only json_load yaml_dump _) w) as H1.
  pose proof (main_keeps_on_fs json_load yaml_dump kinds_kept fuel args
                (json_to_yaml_kinds json_load yaml_dump _) w) as H2.
  destruct (main _ _ _ _ _); by simplify_eq/=.
Qed.

(** X11: without the force flag a run only adds: every node of the file system
    it started from is there afterwards, with the same content. *)
Theorem unforced_run_only_adds fuel args w :
  force_flag args = false →
  (height (fs w) ≤ fuel →
   is_Some (final (main json_load yaml_dump fuel args w))) ∧
  ∀ w', final (main json_load yaml_dump fuel args w) = Some w' →
        fs w ⊆ fs w'.
Proof.
  intros Hf. split; [apply main_ends|]. intros w' Hw'.
  pose proof (main_keeps_on_fs json_load yaml_dump (⊆) fuel args
                (fun source =>
                   json_to_yaml_unforced_grows json_load yaml_dump
                     (mkApp (source_args args) (force_flag args)) source
                     Hf) w)
    as Hk.
  destruct (main _ _ _ _ _); by simplify_eq/=.
Qed.

End Runs2.

(** ** Regular files as arguments, end to end *)

Section Files.
Context {Any : Type} (json_load : string → option Any)
        (yaml_dump : Any → string).
Implicit Types (w : world Any) (self : App) (source dest : Path).

Lemma reach_refl self w : reach json_load yaml_dump self w w.
Proof. intros R HQ _. reflexivity. Qed.

Lemma reach_trans self w1 w2 w3 :
  reach json_load yaml_dump self w1 w2 →
  reach json_load yaml_dump self w2 w3 →
  reach json_load yaml_dump self w1 w3.
Proof. intros H1 H2 R HQ Hc. etrans; [by apply H1|by apply H2]. Qed.

Lemma reach_log self w r :
  reach json_load yaml_dump self w (add_log r w).
Proof. intros R HQ _. apply quiet_log. Qed.

Lemma reach_stat self w p :
  reach json_load yaml_dump self w (add_event (EvStat p) w).
Proof. intros R HQ _. apply quiet_stat. Qed.

Lemma reach_json_to_yaml self source w w' :
  final (json_to_yaml json_load yaml_dump self source w) = Some w' →
  reach json_load yaml_dump self w w'.
Proof.
  intros Hw R HQ Hc. specialize (Hc source w).
  destruct (json_to_yaml _ _ _ _ _); by simplify_eq/=.
Qed.

Lemma reach_process fuel self l w w' :
  final (process json_load yaml_dump fuel self l w) = Some w' →
  reach json_load yaml_dump self w w'.
Proof.
  intros Hw R HQ Hc.
  assert (Hk : keeps R (process json_load yaml_dump fuel self l)).
  { apply keeps_for_each; [apply _|intros source _].
    apply keeps_bind; [apply _|intros w0; apply quiet_log|intros _].
    by apply run_source_keeps_for. }
  specialize (Hk w). destruct (process _ _ _ _ _ _); by simplify_eq/=.
Qed.

(** The loop over arguments that are all regular files: it never runs out
    of fuel, it fails only as a conversion fails, and when it returns every
    argument went through the per-file converter, which returned. *)
Lemma process_files fuel self l w :
  (∀ s, s ∈ l → ∃ c, fs w !! s = Some (File c)) →
  match process json_load yaml_dump fuel self l w with
  | Return _ w' =>
      ∀ s, s ∈ l →
           ∃ wa wb, reach json_load yaml_dump self w wa ∧
                    json_to_yaml json_load yaml_dump self s wa
                    = Return tt wb ∧
                    reach json_load yaml_dump self wb w'
  | Raise e w' => run_failure (force self) (fs w') e
  | OutOfFuel => False
  end.
Proof.
  revert w. induction l as [|x l IH]; intros w Hfiles.
  - cbn. by intros s Hs%elem_of_nil.
  - destruct (Hfiles x (list_elem_of_here _ _)) as [c Hx].
    unfold process. cbn [for_each]. unfold bind at 1. unfold bind at 1.
    unfold logging_log at 1. rewrite run_source_unfold.
    cbn [fs add_log]. rewrite Hx.
    set (wa := add_event (EvStat x) (add_log (DEBUG, Processing x) w)).
    assert (Hwa : reach json_load yaml_dump self w wa).
    { eapply reach_trans; [apply reach_log|apply reach_stat]. }
    destruct (json_to_yaml json_load yaml_dump self x wa)
      as [[] w1|e w1|] eqn:Hconv.
    + assert (H1 : reach json_load yaml_dump self wa w1)
        by (apply (reach_json_to_yaml self x); by rewrite Hconv).
      assert (Hfiles1 : ∀ s, s ∈ l → ∃ c', fs w1 !! s = Some (File c')).
      { intros s Hs. destruct (Hfiles s) as [c' Hc']; [by right|].
        pose proof (reach_trans _ _ _ _ Hwa H1 (on_fs kinds_kept) _
                      (json_to_yaml_kinds json_load yaml_dump self) s)
          as Hk.
        by rewrite Hc' in Hk. }
      specialize (IH w1 Hfiles1). fold (process json_load yaml_dump fuel self l).
      destruct (process json_load yaml_dump fuel self l w1)
        as [[] w'|e w'|] eqn:Hrest; [|done..].
      intros s [->|Hs]%elem_of_cons.
      * exists wa, w1. split_and!; [done..|].
        apply (reach_process fuel self l). by rewrite Hrest.
      * destruct (IH s Hs) as (wa' & wb' & Ha & Hb & Hc).
        exists wa', wb'. split_and!; [|done..].
        eapply reach_trans; [|exact Ha]. by eapply reach_trans.
    + eapply json_to_yaml_failure; [|exact Hconv]. exact Hx.
    + by destruct (json_to_yaml_ends json_load yaml_dump self x wa)
        as [? Hend]; rewrite Hconv in Hend.
Qed.


(** X12: end to end, for arguments that are all regular files: when [main]
    returns, every [.json] argument held valid JSON and its destination
    exists.  Under the force flag the destination holds the YAML text of
    the argument's value; without it the destination holds what it held
    before the run, or that YAML text when it did not exist. *)
Theorem file_arguments_converted fuel args w w' :
  source_args args ≠ [] →
  (∀ s, s ∈ source_args args → ∃ c, fs w !! s = Some (File c)) →
  main json_load yaml_dump fuel args w = Return tt w' →
  ∀ s c, s ∈ source_args args → suffix s = ".json" →
         fs w !! s = Some (File c) →
  ∃ dest v, with_suffix s ".yaml" = Some dest ∧ json_load c = Some v ∧
            fs w' !! dest
            = Some (if force_flag args then File (yaml_dump v)
                    else match fs w !! dest with
                         | Some n => n
                         | None => File (yaml_dump v)
                         end).
Proof.
  intros Hne Hfiles Hmain s c Hin Hs Hsrc.
  rewrite main_unfold in Hmain. unfold try_except, run in Hmain.
  set (self := mkApp _ _) in *. cbn [sources self] in Hmain.
  replace (0 <? length (source_args args)) with true in Hmain
    by (symmetry; apply Nat.ltb_lt; destruct (source_args args);
        [done|cbn; lia]).
  unfold run_sources in Hmain. unfold bind at 1 in Hmain.
  assert (Hann : ∃ w0,
            (if force self then logging_log INFO Forcing_overwrite
             else ret tt) (preamble args w) = Return tt w0 ∧
            fs w0 = fs w).
  { destruct (force self); by eexists. }
  destruct Hann as (w0 & Hw0 & Hfs0). rewrite Hw0 in Hmain.
  fold (process json_load yaml_dump fuel self (sources self)) in Hmain.
  cbn [sources self] in Hmain.
  pose proof (process_files fuel self (source_args args) w0) as Hloop.
  rewrite Hfs0 in Hloop. specialize (Hloop Hfiles).
  destruct (process json_load yaml_dump fuel self (source_args args) w0)
    as [[] w1|e w1|]; [|exfalso|done].
  2:{ destruct Hloop as [->|(_ & ? & ? & _ & _ & _ & ->)]; done. }
  injection Hmain as <-.
  destruct (Hloop s Hin) as (wa & wb & Ha & Hconv & Hb).
  destruct (with_suffix_json_some _ Hs) as [dest Hd].
  destruct (with_suffix_round_trip _ _ Hs Hd) as [Hy _].
  assert (Hjy : ".json" ≠ ".yaml") by done.
  (* the source is as it was, before and after its conversion *)
  assert (Hsa : fs wa !! s = Some (File c)).
  { rewrite <- Hsrc, <- Hfs0.
    apply (Ha (on_fs yaml_only) _
              (json_to_yaml_yaml_only json_load yaml_dump self)).
    by rewrite Hs. }
  assert (Hsb : fs wb !! s = Some (File c)).
  { rewrite <- Hsa.
    pose proof (json_to_yaml_yaml_only json_load yaml_dump self s wa) as Hk.
    rewrite Hconv in Hk. apply Hk. by rewrite Hs. }
  (* whatever a later conversion puts at [dest] is the text of [s] *)
  assert (Hlater : ∀ w2 w3 v, json_load c = Some v →
            fs w2 !! s = Some (File c) →
            reach json_load yaml_dump self w2 w3 →
            fs w3 !! dest = fs w2 !! dest ∨
            fs w3 !! dest = Some (File (yaml_dump v))).
  { intros w2 w3 v Hv H2 Hr.
    destruct (Hr (on_fs (converted json_load yaml_dump)) _
                 (json_to_yaml_converted json_load yaml_dump self) dest)
      as [E|(s2 & c2 & v2 & Hs2 & Hx2 & Hd2 & Hv2 & Hp)]; [by left|].
    right. assert (s2 = s) as ->
      by (by eapply destination_injective).
    congruence. }
  rewrite (json_to_yaml_json _ _ _ _ _ _ Hs Hd), Hsa in Hconv.
  destruct (json_load c) as [v|] eqn:Hv; [|done].
  exists dest, v. split_and!; [done..|].
  change (force self) with (force_flag args) in Hconv.
  destruct (force_flag args) eqn:Hf.
  - assert (Hwb : fs wb !! dest = Some (File (yaml_dump v))).
    { destruct (fs wa !! dest) as [[c'|]|]; simplify_eq;
        cbn [written fs set_fs]; apply lookup_insert_eq. }
    destruct (Hlater wb w1 v eq_refl Hsb Hb) as [E|E]; congruence.
  - assert (Hsub : ∀ w2 w3, reach json_load yaml_dump self w2 w3 →
              fs w2 ⊆ fs w3).
    { intros w2 w3 Hr.
      apply (Hr (on_fs (⊆)) _).
      intros source. by apply json_to_yaml_unforced_grows. }
    pose proof (Hsub _ _ Ha) as Sa. pose proof (Hsub _ _ Hb) as Sb.
    rewrite Hfs0 in Sa.
    destruct (fs wa !! dest) as [n|] eqn:Ea.
    + injection Hconv as <-.
      assert (Hn : fs w1 !! dest = Some n).
      { eapply lookup_weaken; [|exact Sb].
        cbn [fs add_log writing opened add_event]. exact Ea. }
      rewrite Hn. f_equal.
      destruct (fs w !! dest) as [n0|] eqn:E0.
      * pose proof (lookup_weaken _ _ _ _ E0 Sa). congruence.
      * assert (Hs0 : fs w0 !! s = Some (File c)) by (by rewrite Hfs0).
        destruct (Hlater w0 wa v eq_refl Hs0 Ha) as [E|E];
          rewrite Hfs0 in *; congruence.
    + injection Hconv as <-.
      assert (Hn : fs w1 !! dest = Some (File (yaml_dump v))).
      { eapply lookup_weaken; [|exact Sb].
        cbn [written fs set_fs]. apply lookup_insert_eq. }
      rewrite Hn.
      destruct (fs w !! dest) as [n0|] eqn:E0; [|done].
      pose proof (lookup_weaken _ _ _ _ E0 Sa). congruence.
Qed.



End Files.

(** X1: the destination of a [.json] source has the extension [.yaml];
    putting [.json] back gives the source again; so no other [.json]
    source has the same destination. *)
Theorem destination_round_trip source dest :
  suffix source = ".json" → with_suffix source ".yaml" = Some dest →
  suffix dest = ".yaml" ∧ with_suffix dest ".json" = Some source ∧
  ∀ other, suffix other = ".json" →
           with_suffix other ".yaml" = Some dest → other = source.
Proof.
  intros Hs Hd. destruct (with_suffix_round_trip _ _ Hs Hd) as [Hy Hback].
  split_and!; [done..|]. intros other Ho Hod.
  by eapply destination_injective.
Qed.

(** ** The further properties on concrete runs *)

Lemma destination_round_trip_witness :
  suffix a_yaml = ".yaml" ∧ with_suffix a_yaml ".json" = Some a_json ∧
  ∀ other, suffix other = ".json" →
           with_suffix other ".yaml" = Some a_yaml → other = a_json.
Proof.
  apply (destination_round_trip a_json a_yaml); vm_compute; reflexivity.
Defined.




Lemma malformed_source_ends_run_witness :
  let args := mkNamespace WARNING false [data_txt; a_json; missing] in
  let w1 := default w_pair_broken
              (final (run_sources scalar_load scalar_dump 0
                        (mkApp [data_txt] false)
                        (preamble args w_pair_broken))) in
  ∃ dest, with_suffix a_json ".yaml" = Some dest ∧
    main scalar_load scalar_dump 0 args w_pair_broken
    = Raise JSONDecodeError
        (opened a_json dest
           (add_event (EvStat a_json)
              (add_log (DEBUG, Processing a_json) w1))).
Proof.
  cbv zeta.
  apply (malformed_source_ends_run scalar_load scalar_dump 0
           (mkNamespace WARNING false [data_txt; a_json; missing])
           [data_txt] a_json [missing] "{" w_pair_broken);
    vm_compute; reflexivity.
Defined.

Lemma wrong_extension_continues_witness :
  process scalar_load scalar_dump 0 unforced [data_txt; a_json] w_pair
  = process scalar_load scalar_dump 0 unforced [a_json]
      (add_log (WARNING, No_json_extension_skipping data_txt)
         (add_event (EvStat data_txt)
            (add_log (DEBUG, Processing data_txt) w_pair))).
Proof.
  apply (wrong_extension_continues scalar_load scalar_dump 0 unforced
           data_txt [a_json] "x" w_pair).
  - vm_compute. reflexivity.
  - vm_compute. discriminate.
Defined.


Lemma run_never_harms_witness :
  let args := mkNamespace WARNING true [a_json] in
  let w' := default w_stale
              (final (main scalar_load scalar_dump 0 args w_stale)) in
  fs w' !! a_json = fs w_stale !! a_json ∧ kinds_kept (fs w_stale) (fs w').
Proof.
  cbv zeta.
  destruct (proj2 (run_never_harms scalar_load scalar_dump 0
                     (mkNamespace WARNING true [a_json]) w_stale)
              (default w_stale
                 (final (main scalar_load scalar_dump 0
                           (mkNamespace WARNING true [a_json]) w_stale))))
    as [Hy Hk].
  - vm_compute. reflexivity.
  - split; [|exact Hk]. apply Hy. vm_compute. discriminate.
Defined.

Lemma unforced_run_only_adds_witness :
  let args := mkNamespace WARNING false [a_json; data_txt] in
  let w' := default w_pair
              (final (main scalar_load scalar_dump 0 args w_pair)) in
  fs w_pair ⊆ fs w'.
Proof.
  cbv zeta.
  apply (proj2 (unforced_run_only_adds scalar_load scalar_dump 0
                  (mkNamespace WARNING false [a_json; data_txt]) w_pair
                  eq_refl)).
  vm_compute. reflexivity.
Defined.

Lemma file_arguments_converted_witness :
  let args := mkNamespace WARNING true [a_json; data_txt] in
  let w' := default w_pair
              (final (main scalar_load scalar_dump 0 args w_pair)) in
  ∃ dest v, with_suffix a_json ".yaml" = Some dest ∧
            scalar_load "null" = Some v ∧
            fs w' !! dest
            = Some (if force_flag args then File (scalar_dump v)
                    else match fs w_pair !! dest with
                         | Some n => n
                         | None => File (scalar_dump v)
                         end).
Proof.
  cbv zeta.
  apply (file_arguments_converted scalar_load scalar_dump 0
           (mkNamespace WARNING true [a_json; data_txt]) w_pair).
  - done.
  - intros s Hs. cbn [source_args] in Hs.
    apply elem_of_cons in Hs as [->|Hs];
      [|apply list_elem_of_singleton in Hs as ->];
      eexists; vm_compute; reflexivity.
  - vm_compute. reflexivity.
  - left.
  - vm_compute. reflexivity.
  - vm_compute. reflexivity.
Defined.

